(** * Stripe subscription synchronisation: a shallow embedding

    This development embeds [src/services/StripeSubscriptionSyncService.ts]
    (class [StripeService]) and the record types of
    [src/types/billing.subscription.types.ts].

    The service is asynchronous TypeScript that talks to a payment gateway,
    three Mongoose collections and a logger.  Each [async] method becomes a
    computation in a state-and-exception monad over a [World]; an exception
    leaves the effects performed before it in place, exactly as a JavaScript
    [throw] does. *)

From Stdlib Require Import String Ascii ZArith List Bool Lia.
Import ListNotations.

Local Open Scope string_scope.
Local Open Scope Z_scope.

(** ** Errors and the logger *)

(** [new Error(message)].  The [stack] property only feeds the [location]
    field of a log entry and is not represented. *)
Record Error : Type := mkError { message : string }.

(** The result of a call that may throw. *)
Definition Exc (A : Type) : Type := (Error + A)%type.

(** [Logger.error({location, message})] and [Logger.log({message})]. *)
Inductive LogEntry : Type :=
| LogError (msg : string)
| LogInfo (msg : string).

(** The messages the service throws, named after the error taxonomy. *)
Definition UninitializedGateway : Error :=
  mkError "Stripe instance is not initialized.".

Definition AlreadyLinked (field externalId : string) : Error :=
  mkError ("A mapping for " ++ field ++ " " ++ externalId ++ " already exists.").

Definition MappingNotFound (field externalId : string) : Error :=
  mkError ("No mapping found for " ++ field ++ ": " ++ externalId).

Definition NotFound (stripeCustomerId : string) : Error :=
  mkError ("No participant found for stripeCustomerId: " ++ stripeCustomerId).

Definition CustomerDeleted : Error :=
  mkError "Customer has been deleted".

Definition UnresolvableCustomer : Error :=
  mkError "Unable to retrieve customer ID".

Definition SubscriptionRecordNotFound (stripeId : string) : Error :=
  mkError ("Subscription with stripeId " ++ stripeId
           ++ " not found in the database.").

Definition InvalidSubscriptionId : Error :=
  mkError "Can't unregister subscription: Subscription ID is missing or invalid.".

Definition SubscriptionNotFound : Error :=
  mkError "Can't register subscription: Subscription not found or invalid.".

(** JavaScript truthiness of a string: only the empty string is falsy. *)
Definition truthy (s : string) : bool := negb (s =? "")%string.

(** ** Dates *)

(** A [Date] holds a time value in milliseconds since the epoch, or [NaN]
    (an invalid date), here [None]. *)
Record Date : Type := mkDate { timeValue : option Z }.

(** [new Date(v)] for an integral number [v]: the time value is
    [TimeClip(v)], which is [NaN] beyond 8.64e15 ms. *)
Definition maxTimeValue : Z := 8640000000000000.

Definition new_Date (v : Z) : Date :=
  mkDate (if Z.abs v <=? maxTimeValue then Some v else None).

(** Calendar fields of a time value (the UTC reading that
    [Date.prototype.toISOString] prints). *)
Record UTCFields : Type := mkUTC {
  utcYear : Z; utcMonth : Z; utcDay : Z;
  utcHours : Z; utcMinutes : Z; utcSeconds : Z; utcMilliseconds : Z }.

Definition msPerDay : Z := 86400000.

(** Civil date of a day number counted from 1970-01-01 (proleptic Gregorian
    calendar, eras of 400 years starting on March 1st). *)
Definition civil_from_days (day : Z) : Z * Z * Z :=
  let z := day + 719468 in
  let era := z / 146097 in
  let doe := z - era * 146097 in
  let yoe := (doe - doe / 1460 + doe / 36524 - doe / 146096) / 365 in
  let doy := doe - (365 * yoe + yoe / 4 - yoe / 100) in
  let mp := (5 * doy + 2) / 153 in
  let d := doy - (153 * mp + 2) / 5 + 1 in
  let m := if mp <? 10 then mp + 3 else mp - 9 in
  let y := yoe + era * 400 in
  ((if m <=? 2 then y + 1 else y), m, d).

(** Day number of a civil date: the inverse reading, as [Date.UTC] does. *)
Definition days_from_civil (y m d : Z) : Z :=
  let y' := if m <=? 2 then y - 1 else y in
  let era := y' / 400 in
  let yoe := y' - era * 400 in
  let doy := (153 * (if 2 <? m then m - 3 else m + 9) + 2) / 5 + d - 1 in
  let doe := yoe * 365 + yoe / 4 - yoe / 100 + doy in
  era * 146097 + doe - 719468.

Definition utcFields (t : Z) : UTCFields :=
  let day := t / msPerDay in
  let r := t mod msPerDay in
  let '(y, m, d) := civil_from_days day in
  mkUTC y m d (r / 3600000) ((r / 60000) mod 60) ((r / 1000) mod 60)
        (r mod 1000).

(** Whether a test holds on each of [n] consecutive days from [day]. *)
Fixpoint all_days (n : nat) (day : Z) (test : Z -> bool) : bool :=
  match n with
  | O => true
  | S n' => test day && all_days n' (day + 1) test
  end.

(** [Date.UTC(year, month, day, hours, minutes, seconds)] with the month
    counted from 1, as it is written in an ISO instant. *)
Definition Date_UTC (y m d hh mm ss : Z) : Z :=
  days_from_civil y m d * msPerDay + hh * 3600000 + mm * 60000 + ss * 1000.

(** The calendar reading of a [Date]; [None] for an invalid date. *)
Definition toUTC (d : Date) : option UTCFields :=
  option_map utcFields (timeValue d).

(** ** Domain records ([billing.subscription.types.ts]) *)

Inductive SubscriptionType : Type := limitDate | payAmount | usageCount.

Record SubscriptionDetail : Type := mkDetail {
  d_limitDate : option Date;
  d_payAmount : option Z;
  d_usageCount : option Z;
  startDate : Date;
  endDate : option Date }.

Record Subscription : Type := mkSubscription {
  _id : option string;
  stripeId : option string;
  isActive : bool;
  participant : string;
  subscriptionType : SubscriptionType;
  resource : option string;
  resources : option (list string);
  details : SubscriptionDetail }.

(** ** Provider objects *)

(** An expanded customer object: which of the properties [deleted] and [id]
    it carries, and their values. *)
Record CustomerObject : Type := mkCustomerObject {
  deleted : option bool;
  id : option string }.

(** [string | Stripe.Customer | Stripe.DeletedCustomer], and the [null] the
    code guards against. *)
Inductive CustomerRef : Type :=
| CustomerId (s : string)
| CustomerExpanded (o : CustomerObject)
| CustomerNull.

(** The fields of [Stripe.Subscription] the service reads. *)
Record RawSubscription : Type := mkRaw {
  sub_id : string;
  status : string;
  customer : CustomerRef;
  current_period_start : Z;
  current_period_end : Z }.

(** [Stripe.Customer] as returned by [customers.create]. *)
Record Customer : Type := mkCustomer {
  cus_id : string;
  cus_email : string }.

(** [Stripe.Event]: its [type] and [data.object]. *)
Record Event : Type := mkEvent {
  event_type : string;
  data_object : RawSubscription }.

(** The Stripe client: the two calls the service makes.  Each may throw. *)
Record Stripe : Type := mkStripe {
  customers_create : string -> Exc Customer;
  subscriptions_retrieve : string -> Exc RawSubscription }.

(** ** The identity-mapping collections *)

(** A document of [CustomerParticipantMap] or
    [ConnectedAccountParticipantMap]: a participant and the external id
    ([stripeCustomerId], respectively [stripeAccount]). *)
Record Mapping : Type := mkMapping {
  m_participant : string;
  externalId : string }.

Definition Collection : Type := list Mapping.

Inductive MappingKind : Type := CustomerKind | ConnectedAccountKind.

Definition keyField (k : MappingKind) : string :=
  match k with
  | CustomerKind => "stripeCustomerId"
  | ConnectedAccountKind => "stripeAccount"
  end.

Module Model.

(** [Model.findOne({key})]: the first document with that external id. *)
Definition findOne (key : string) (c : Collection) : option Mapping :=
  find (fun m => (externalId m =? key)%string) c.

(** Modelled from the spec: the Mongoose schemas are not part of the
    sources; section 5 requires external-id uniqueness to be enforced at
    the storage boundary with atomic compare-and-insert semantics, the
    losing insert observing [AlreadyLinked].  [save] is that single atomic
    storage operation. *)
Definition save (field : string) (m : Mapping) (c : Collection)
  : Exc unit * Collection :=
  match findOne (externalId m) c with
  | Some _ => (inl (AlreadyLinked field (externalId m)), c)
  | None => (inr tt, (c ++ [m])%list)
  end.

(** A storage boundary that does not check anything on insert, for
    comparison. *)
Definition save_unchecked (m : Mapping) (c : Collection)
  : Exc unit * Collection :=
  (inr tt, (c ++ [m])%list).

(** [Model.findOneAndDelete({key})]: removes the first document with that
    external id and returns it. *)
Fixpoint findOneAndDelete (key : string) (c : Collection)
  : option Mapping * Collection :=
  match c with
  | [] => (None, [])
  | m :: c' =>
      if (externalId m =? key)%string then (Some m, c')
      else let '(r, c'') := findOneAndDelete key c' in (r, m :: c'')
  end.

(** External-id uniqueness of a collection. *)
Definition unique (c : Collection) : Prop := NoDup (map externalId c).

End Model.

(** Whether an external id is mapped in a collection. *)
Definition mapped (e : string) (c : Collection) : bool :=
  match Model.findOne e c with Some _ => true | None => false end.

(** ** The subscription repository *)

(** What [SubscriptionModel.findOne({stripeId}, {_id: 1})] yields: the
    rendering [_id.toString()] of the record's internal id. *)
Record SubscriptionDoc : Type := mkDoc { doc_id : string }.

(** The persistence capability: the [SubscriptionModel] collection together
    with the [BillingSubscriptionSyncService] singleton.  Its implementation
    is outside the sources, so it is an interface; every operation may
    throw.  [addSubscriptions] and [removeSubscription] stand for obtaining
    the singleton and calling the method on it. *)
Class BillingRepository (R : Type) : Type := {
  findOneByStripeId : string -> R -> Exc (option SubscriptionDoc);
  addSubscriptions : list Subscription -> R -> Exc unit * R;
  removeSubscription : string -> R -> Exc unit * R }.

(** ** The world and the monad *)

Record World (R : Type) : Type := mkWorld {
  stripe : option Stripe;
  customerMap : Collection;
  accountMap : Collection;
  repo : R;
  log : list LogEntry }.

Arguments mkWorld {R}.
Arguments stripe {R}.
Arguments customerMap {R}.
Arguments accountMap {R}.
Arguments repo {R}.
Arguments log {R}.

(** An [async] method: it reads and updates the world and either returns a
    value or throws. *)
Definition M (R A : Type) : Type := World R -> Exc A * World R.

Definition ret {R A} (a : A) : M R A := fun w => (inr a, w).

Definition throw {R A} (e : Error) : M R A := fun w => (inl e, w).

Definition bind {R A B} (c : M R A) (k : A -> M R B) : M R B :=
  fun w =>
    match c w with
    | (inr a, w') => k a w'
    | (inl e, w') => (inl e, w')
    end.

(** [try { body } catch (error) { handler }] *)
Definition try_catch {R A} (body : M R A) (handler : Error -> M R A) : M R A :=
  fun w =>
    match body w with
    | (inr a, w') => (inr a, w')
    | (inl e, w') => handler e w'
    end.

Declare Scope async_scope.
Delimit Scope async_scope with async.

Notation "x <- c ;; k" := (bind c (fun x => k))
  (at level 100, c at next level, right associativity) : async_scope.
Notation "c ;; k" := (bind c (fun _ => k))
  (at level 100, right associativity) : async_scope.

Local Open Scope async_scope.

Section Service.

Context {R : Type} `{BillingRepository R}.

(** The world with one more entry in the log. *)
Definition add_log (entry : LogEntry) (w : World R) : World R :=
  mkWorld (stripe w) (customerMap w) (accountMap w) (repo w)
          (log w ++ [entry])%list.

Definition Logger_error (msg : string) : M R unit :=
  fun w => (inr tt, add_log (LogError msg) w).

Definition Logger_log (msg : string) : M R unit :=
  fun w => (inr tt, add_log (LogInfo msg) w).

(** The world after a rejected linking call: one more line in the log. *)
Definition rejected (k : MappingKind) (p e : string) (w : World R) : World R :=
  add_log (LogError ("Error linking participant " ++ p ++ " to "
                     ++ keyField k ++ " " ++ e ++ ": "
                     ++ message (AlreadyLinked (keyField k) e))) w.

(** The world after a failed lookup of a customer id: one more log line. *)
Definition lookup_failed (i : string) (w : World R) : World R :=
  add_log (LogError ("Error fetching participant for stripeCustomerId "
                     ++ i ++ ": " ++ message (NotFound i))) w.

(** [if (!this.stripe) throw new Error('Stripe instance is not
    initialized.')] followed by the use of [this.stripe]. *)
Definition getStripe : M R Stripe :=
  fun w =>
    match stripe w with
    | Some s => (inr s, w)
    | None => (inl UninitializedGateway, w)
    end.

(** A call to the Stripe API. *)
Definition call {A} (r : Exc A) : M R A := fun w => (r, w).

(** What the gateway answers when asked for a subscription, respectively
    for a new customer: the client's answer, or the error of a missing
    client. *)
Definition retrieval (subscriptionId : string) (w : World R)
  : Exc RawSubscription :=
  match stripe w with
  | Some s => subscriptions_retrieve s subscriptionId
  | None => inl UninitializedGateway
  end.

Definition creation (email : string) (w : World R) : Exc Customer :=
  match stripe w with
  | Some s => customers_create s email
  | None => inl UninitializedGateway
  end.

(** The collection of a mapping kind and its replacement. *)
Definition collection (k : MappingKind) (w : World R) : Collection :=
  match k with
  | CustomerKind => customerMap w
  | ConnectedAccountKind => accountMap w
  end.

Definition set_collection (k : MappingKind) (c : Collection) (w : World R)
  : World R :=
  match k with
  | CustomerKind => mkWorld (stripe w) c (accountMap w) (repo w) (log w)
  | ConnectedAccountKind =>
      mkWorld (stripe w) (customerMap w) c (repo w) (log w)
  end.

(** The queries are those of a store that answers: a lost connection, on
    which every query rejects, is not represented. *)
Definition Model_findOne (k : MappingKind) (key : string)
  : M R (option Mapping) :=
  fun w => (inr (Model.findOne key (collection k w)), w).

Definition Model_save (k : MappingKind) (m : Mapping) : M R unit :=
  fun w =>
    let '(r, c) := Model.save (keyField k) m (collection k w) in
    (r, set_collection k c w).

Definition Model_findOneAndDelete (k : MappingKind) (key : string)
  : M R (option Mapping) :=
  fun w =>
    let '(r, c) := Model.findOneAndDelete key (collection k w) in
    (inr r, set_collection k c w).

(** *** [connect] *)

Definition connect (email : string) : M R (option Customer) :=
  try_catch
    (s <- getStripe ;;
     customer <- call (customers_create s email) ;;
     ret (Some customer))
    (fun err =>
       Logger_error ("Error creating Stripe customer: " ++ message err) ;;
       ret None).

(** *** Linking and unlinking *)

Definition linkParticipantToCustomer (participant stripeCustomerId : string)
  : M R unit :=
  try_catch
    (existingMapping <- Model_findOne CustomerKind stripeCustomerId ;;
     match existingMapping with
     | Some _ => throw (AlreadyLinked "stripeCustomerId" stripeCustomerId)
     | None =>
         Model_save CustomerKind (mkMapping participant stripeCustomerId)
     end)
    (fun err =>
       Logger_error ("Error linking participant " ++ participant
                     ++ " to stripeCustomerId " ++ stripeCustomerId
                     ++ ": " ++ message err) ;;
       throw err).

Definition linkParticipantToConnectedAccount
    (participant stripeAccount : string) : M R Mapping :=
  try_catch
    (existingMapping <- Model_findOne ConnectedAccountKind stripeAccount ;;
     match existingMapping with
     | Some _ => throw (AlreadyLinked "stripeAccount" stripeAccount)
     | None =>
         let newMapping := mkMapping participant stripeAccount in
         Model_save ConnectedAccountKind newMapping ;;
         ret newMapping
     end)
    (fun err =>
       Logger_error ("Error linking participant " ++ participant
                     ++ " to stripeAccount " ++ stripeAccount
                     ++ ": " ++ message err) ;;
       throw err).

Definition unlinkParticipantFromCustomer (stripeCustomerId : string)
  : M R unit :=
  try_catch
    (result <- Model_findOneAndDelete CustomerKind stripeCustomerId ;;
     match result with
     | None => throw (MappingNotFound "stripeCustomerId" stripeCustomerId)
     | Some _ =>
         Logger_log ("Participant has been unlinked from stripeCustomerId "
                     ++ stripeCustomerId)
     end)
    (fun err =>
       Logger_error ("Error unlinking stripeCustomerId " ++ stripeCustomerId
                     ++ ": " ++ message err) ;;
       throw err).

Definition unlinkParticipantFromConnectedAccount (stripeAccount : string)
  : M R unit :=
  try_catch
    (result <- Model_findOneAndDelete ConnectedAccountKind stripeAccount ;;
     match result with
     | None => throw (MappingNotFound "stripeAccount" stripeAccount)
     | Some _ =>
         Logger_log ("Participant has been unlinked from connected account "
                     ++ stripeAccount)
     end)
    (fun err =>
       Logger_error ("Error unlinking stripeAccount " ++ stripeAccount
                     ++ ": " ++ message err) ;;
       throw err).

(** The two linking operations seen per mapping kind, forgetting the
    returned document. *)
Definition link (k : MappingKind) (participant externalId : string)
  : M R unit :=
  match k with
  | CustomerKind => linkParticipantToCustomer participant externalId
  | ConnectedAccountKind =>
      _ <- linkParticipantToConnectedAccount participant externalId ;;
      ret tt
  end.

(** A run of linking calls, one after the other, whatever each returns. *)
Fixpoint links (ops : list (MappingKind * string * string)) (w : World R)
  : World R :=
  match ops with
  | [] => w
  | (k, p, e) :: ops' => links ops' (snd (link k p e w))
  end.

(** *** Participant resolution *)

Definition getRelatedParticipant (stripeCustomerId : string) : M R string :=
  try_catch
    (mapping <- Model_findOne CustomerKind stripeCustomerId ;;
     match mapping with
     | None => throw (NotFound stripeCustomerId)
     | Some m => ret (m_participant m)
     end)
    (fun err =>
       Logger_error ("Error fetching participant for stripeCustomerId "
                     ++ stripeCustomerId ++ ": " ++ message err) ;;
       throw err).

(** The first part of [getParticipant]: the customer id extracted from the
    raw reference, [null] when there is none, or the thrown error. *)
Definition customerId_of (customer : CustomerRef) : Exc (option string) :=
  match customer with
  | CustomerId s => inr (Some s)
  | CustomerExpanded o =>
      match deleted o with
      | Some true => inl CustomerDeleted
      | _ =>
          match id o with
          | Some i => inr (Some i)
          | None => inr None
          end
      end
  | CustomerNull => inr None
  end.

Definition getParticipant (customer : CustomerRef) : M R string :=
  customerId <- call (customerId_of customer) ;;
  match customerId with
  | Some i =>
      if truthy i then getRelatedParticipant i
      else throw UnresolvableCustomer
  | None => throw UnresolvableCustomer
  end.

Definition getBillingType (subscription : RawSubscription)
  : SubscriptionType := payAmount.

(** *** Translation *)

Definition getStripeSubscription (subscriptionId : string)
  : M R (option RawSubscription) :=
  try_catch
    (s <- getStripe ;;
     subscription <- call (subscriptions_retrieve s subscriptionId) ;;
     ret (Some subscription))
    (fun err =>
       Logger_error ("Error retrieving Stripe subscription: "
                     ++ message err) ;;
       ret None).

Definition formatStripeSubscription (subscriptionId : string)
  : M R (option Subscription) :=
  subscription <- getStripeSubscription subscriptionId ;;
  match subscription with
  | Some subscription =>
      let isActive := (status subscription =? "active")%string in
      participant <- getParticipant (customer subscription) ;;
      let subscriptionType := getBillingType subscription in
      let stripeId := sub_id subscription in
      let startDate := new_Date (current_period_start subscription * 1000) in
      let endDate := new_Date (current_period_end subscription * 1000) in
      ret (Some (mkSubscription None (Some stripeId) isActive participant
                   subscriptionType (Some "") (Some [])
                   (mkDetail None None None startDate (Some endDate))))
  | None => ret None
  end.

(** The record [formatStripeSubscription] builds from a raw subscription
    and the resolved participant. *)
Definition translated (raw : RawSubscription) (p : string) : Subscription :=
  mkSubscription None (Some (sub_id raw)) (status raw =? "active")%string p
    payAmount (Some "") (Some [])
    (mkDetail None None None
       (new_Date (current_period_start raw * 1000))
       (Some (new_Date (current_period_end raw * 1000)))).

(** *** The repository calls *)

Definition set_repo (r : R) (w : World R) : World R :=
  mkWorld (stripe w) (customerMap w) (accountMap w) r (log w).

Definition SubscriptionModel_findOne (stripeId : string)
  : M R (option SubscriptionDoc) :=
  fun w => (findOneByStripeId stripeId (repo w), w).

Definition sync_addSubscriptions (subs : list Subscription) : M R unit :=
  fun w => let '(r, rp) := addSubscriptions subs (repo w) in (r, set_repo rp w).

Definition sync_removeSubscription (subscriptionId : string) : M R unit :=
  fun w =>
    let '(r, rp) := removeSubscription subscriptionId (repo w) in
    (r, set_repo rp w).

(** *** Event handling *)

(** The body of the [try] block of [unregisterSubscription]. *)
Definition unregisterSubscription_try (subscription : RawSubscription)
  : M R unit :=
  billingSubscription <- SubscriptionModel_findOne (sub_id subscription) ;;
  match billingSubscription with
  | None => throw (SubscriptionRecordNotFound (sub_id subscription))
  | Some doc =>
      let subscriptionId := doc_id doc in
      if truthy subscriptionId then sync_removeSubscription subscriptionId
      else throw InvalidSubscriptionId
  end.

Definition unregisterSubscription (subscription : RawSubscription)
  : M R unit :=
  try_catch (unregisterSubscription_try subscription)
    (fun err =>
       Logger_error ("Error unregistering subscription "
                     ++ sub_id subscription ++ ": " ++ message err)).

(** The body of the [try] block of [registerSubscription]. *)
Definition registerSubscription_try (subscription : RawSubscription)
  : M R unit :=
  let formattedSubs : list Subscription := [] in
  formattedSub <- formatStripeSubscription (sub_id subscription) ;;
  match formattedSub with
  | Some formattedSub =>
      let formattedSubs := (formattedSubs ++ [formattedSub])%list in
      sync_addSubscriptions formattedSubs
  | None => throw SubscriptionNotFound
  end.

Definition registerSubscription (subscription : RawSubscription)
  : M R unit :=
  try_catch (registerSubscription_try subscription)
    (fun err =>
       Logger_error ("Error registering subscription "
                     ++ sub_id subscription ++ ": " ++ message err)).

(** The body of the [try] block of [handleWebhook]. *)
Definition handleWebhook_try (event : Event) : M R unit :=
  _ <- getStripe ;;
  let subscription := data_object event in
  if (event_type event =? "customer.subscription.updated")%string then
    ret tt
  else if (event_type event =? "customer.subscription.deleted")%string then
    unregisterSubscription subscription
  else if (event_type event =? "customer.subscription.created")%string then
    registerSubscription subscription
  else
    Logger_log ("Unhandled event type " ++ event_type event).

Definition handleWebhook (event : Event) : M R unit :=
  try_catch (handleWebhook_try event)
    (fun err =>
       Logger_error ("Error handling Stripe webhook: " ++ message err)).

(** The event kinds the [switch] has a case for. *)
Definition recognized (kind : string) : bool :=
  (kind =? "customer.subscription.updated")%string
  || (kind =? "customer.subscription.deleted")%string
  || (kind =? "customer.subscription.created")%string.

End Service.

(** ** Concurrent deliveries of a linking call *)

(** A linking call suspends at its two [await]s: the storage query and the
    storage insert.  Between them it holds the query's answer. *)
Inductive LinkPc : Type :=
| AtFind
| AtSave (existing : option Mapping)
| Finished (result : Exc unit).

Section Concurrent.

Context {R : Type} `{BillingRepository R}.

(** The insert operation of the storage boundary. *)
Variable storage_save : string -> Mapping -> Collection -> Exc unit * Collection.

Definition Model_save_with (k : MappingKind) (m : Mapping) : M R unit :=
  fun w =>
    let '(r, c) := storage_save (keyField k) m (collection k w) in
    (r, set_collection k c w).

(** What a linking call does once the query has answered: the check, the
    insert, and the [catch] that logs and rethrows. *)
Definition link_resume (k : MappingKind) (participant externalId : string)
    (existing : option Mapping) : M R unit :=
  try_catch
    (match existing with
     | Some _ => throw (AlreadyLinked (keyField k) externalId)
     | None => Model_save_with k (mkMapping participant externalId)
     end)
    (fun err =>
       Logger_error ("Error linking participant " ++ participant
                     ++ " to " ++ keyField k ++ " " ++ externalId
                     ++ ": " ++ message err) ;;
       throw err).

(** One atomic step of a linking call. *)
Definition link_step (k : MappingKind) (participant externalId : string)
    (pc : LinkPc) (w : World R) : LinkPc * World R :=
  match pc with
  | AtFind =>
      match Model_findOne k externalId w with
      | (inr existing, w') => (AtSave existing, w')
      | (inl err, w') => (Finished (inl err), w')
      end
  | AtSave existing =>
      let '(r, w') := link_resume k participant externalId existing w in
      (Finished r, w')
  | Finished r => (Finished r, w)
  end.

(** Two calls [link(p1, e)] and [link(p2, e)] interleaved by a schedule:
    [true] lets the first call take its next step, [false] the second. *)
Fixpoint race (k : MappingKind) (p1 p2 e : string) (schedule : list bool)
    (st : LinkPc * LinkPc * World R) : LinkPc * LinkPc * World R :=
  match schedule with
  | [] => st
  | first :: schedule' =>
      let '(pc1, pc2, w) := st in
      if first then
        let '(pc1', w') := link_step k p1 e pc1 w in
        race k p1 p2 e schedule' (pc1', pc2, w')
      else
        let '(pc2', w') := link_step k p2 e pc2 w in
        race k p1 p2 e schedule' (pc1, pc2', w')
  end.

End Concurrent.

(** Whether a call has won, i.e. returned normally. *)
Definition won (pc : LinkPc) : bool :=
  match pc with
  | Finished (inr _) => true
  | _ => false
  end.

(** What a call may assume about the collection at each point. *)
Definition pc_ok (k : MappingKind) (e : string) (pc : LinkPc)
    (c : Collection) : Prop :=
  match pc with
  | AtFind | AtSave None => True
  | AtSave (Some _) | Finished (inr _) => mapped e c = true
  | Finished (inl err) =>
      err = AlreadyLinked (keyField k) e /\ mapped e c = true
  end.

(** The invariant of a race for [e]: every call is consistent with the
    collection, and the calls that have won, plus one if [e] was mapped
    from the start, number as many as [e] is mapped now: none or one. *)
Definition race_inv {R : Type} (k : MappingKind) (e : string) (initially : bool)
    (st : LinkPc * LinkPc * World R) : Prop :=
  let '(pc1, pc2, w) := st in
  pc_ok k e pc1 (collection k w) /\ pc_ok k e pc2 (collection k w)
  /\ (Nat.b2n initially + Nat.b2n (won pc1) + Nat.b2n (won pc2)
      = Nat.b2n (mapped e (collection k w)))%nat.

(** ** An in-memory repository and a sample deployment *)

(** The calls received by the synchronisation service. *)
Inductive RepositoryCall : Type :=
| AddSubscriptions (batch : list Subscription)
| RemoveSubscription (internalId : string).

(** Modelled from the spec: the [BillingRepository] capability of section 6
    as a list of records, with a journal of the calls it received;
    [removeSubscription] fails when no record has the internal id. *)
Record MemoryRepository : Type := mkMemory {
  records : list Subscription;
  calls : list RepositoryCall }.

Definition has_stripeId (key : string) (s : Subscription) : bool :=
  match stripeId s with
  | Some i => (i =? key)%string
  | None => false
  end.

Definition has_id (key : string) (s : Subscription) : bool :=
  match _id s with
  | Some i => (i =? key)%string
  | None => false
  end.

(** The query and the rendering [_id.toString()] of the record found; on a
    record without [_id] the rendering is a [TypeError]. *)
Definition memory_findOne (key : string) (r : MemoryRepository)
  : Exc (option SubscriptionDoc) :=
  match find (has_stripeId key) (records r) with
  | None => inr None
  | Some s =>
      match _id s with
      | Some i => inr (Some (mkDoc i))
      | None =>
          inl (mkError
                 "Cannot read properties of undefined (reading 'toString')")
      end
  end.

(** The internal ids the store generates: 24 hexadecimal digits, the first
    8 from the number of calls received so far, the last 16 from the
    position of the record among the records stored. *)
Definition hexDigit (n : N) : ascii :=
  match n with
  | 0%N => "0" | 1%N => "1" | 2%N => "2" | 3%N => "3" | 4%N => "4"
  | 5%N => "5" | 6%N => "6" | 7%N => "7" | 8%N => "8" | 9%N => "9"
  | 10%N => "a" | 11%N => "b" | 12%N => "c" | 13%N => "d" | 14%N => "e"
  | _ => "f"
  end%char.

Fixpoint hex (width : nat) (n : N) : string :=
  match width with
  | O => ""
  | S width' => hex width' (n / 16) ++ String (hexDigit (n mod 16)) ""
  end.

Definition generateId (r : MemoryRepository) (index : nat) : string :=
  hex 8 (N.of_nat (length (calls r)))
  ++ hex 16 (N.of_nat (length (records r) + index)).

Definition with_id (i : string) (s : Subscription) : Subscription :=
  mkSubscription (Some i) (stripeId s) (isActive s) (participant s)
    (subscriptionType s) (resource s) (resources s) (details s).

(** The records of a batch as they are stored: a record that comes without
    an internal id is given a generated one. *)
Fixpoint assign_ids (r : MemoryRepository) (index : nat)
    (subs : list Subscription) : list Subscription :=
  match subs with
  | [] => []
  | s :: subs' =>
      (match _id s with
       | Some _ => s
       | None => with_id (generateId r index) s
       end) :: assign_ids r (S index) subs'
  end.

Definition memory_add (subs : list Subscription) (r : MemoryRepository)
  : Exc unit * MemoryRepository :=
  (inr tt,
   mkMemory (records r ++ assign_ids r 0 subs)%list
     (calls r ++ [AddSubscriptions subs])%list).

(** Every stored record has an internal id, and none renders empty. *)
Definition ids_ok (r : MemoryRepository) : Prop :=
  Forall (fun s => exists i, _id s = Some i /\ i <> "") (records r).

Definition memory_remove (key : string) (r : MemoryRepository)
  : Exc unit * MemoryRepository :=
  let journal := (calls r ++ [RemoveSubscription key])%list in
  if existsb (has_id key) (records r)
  then (inr tt,
        mkMemory (filter (fun s => negb (has_id key s)) (records r)) journal)
  else (inl (mkError ("Subscription " ++ key ++ " not found")),
        mkMemory (records r) journal).

#[export] Instance MemoryRepository_BillingRepository
  : BillingRepository MemoryRepository :=
  {| findOneByStripeId := memory_findOne;
     addSubscriptions := memory_add;
     removeSubscription := memory_remove |}.

Definition empty_repository : MemoryRepository := mkMemory [] [].

(** The scenario of section 8: subscription [sub_1] of customer [cus_1],
    who is linked to participant [alice]. *)
Definition sub_1 : RawSubscription :=
  mkRaw "sub_1" "active" (CustomerId "cus_1") 1700000000 1702592000.

Definition sample_stripe : Stripe :=
  mkStripe
    (fun email => inr (mkCustomer "cus_new" email))
    (fun i => if (i =? "sub_1")%string then inr sub_1
              else inl (mkError ("No such subscription: " ++ i))).

Definition sample_world : World MemoryRepository :=
  mkWorld (Some sample_stripe) [mkMapping "alice" "cus_1"] []
    empty_repository [].

(** A client whose every call fails, and a deployment without a client. *)
Definition failing_stripe : Stripe :=
  mkStripe (fun _ => inl (mkError "connection refused"))
           (fun _ => inl (mkError "connection refused")).

Definition offline_world : World MemoryRepository :=
  mkWorld (Some failing_stripe) [mkMapping "alice" "cus_1"] []
    empty_repository [].

Definition uninitialized_world : World MemoryRepository :=
  mkWorld None [] [] empty_repository [].

(** The translated record of [sub_1] as stored. *)
Definition stored_sub_1 : Subscription :=
  mkSubscription (Some "650000000000000000000001") (Some "sub_1") true "alice"
    payAmount (Some "") (Some [])
    (mkDetail None None None (new_Date 1700000000000)
       (Some (new_Date 1702592000000))).

(** A world in which the empty string is itself a mapped external id. *)
Definition empty_id_world : World MemoryRepository :=
  mkWorld (Some sample_stripe) [mkMapping "alice" ""] []
    empty_repository [].

(** A deployment whose repository holds the translated record of [sub_1]. *)
Definition stored_world : World MemoryRepository :=
  mkWorld (Some sample_stripe) [mkMapping "alice" "cus_1"] []
    (mkMemory [stored_sub_1] []) [].

(** Two more subscriptions: one of the unlinked customer [cus_2], one of
    an expanded customer object that the provider marks deleted. *)
Definition sub_2 : RawSubscription :=
  mkRaw "sub_2" "past_due" (CustomerId "cus_2") 1700000000 1702592000.

Definition sub_3 : RawSubscription :=
  mkRaw "sub_3" "active"
    (CustomerExpanded (mkCustomerObject (Some true) (Some "cus_1")))
    1700000000 1702592000.

Definition second_stripe : Stripe :=
  mkStripe
    (fun email => inr (mkCustomer "cus_new" email))
    (fun i => if (i =? "sub_2")%string then inr sub_2
              else if (i =? "sub_3")%string then inr sub_3
              else inl (mkError ("No such subscription: " ++ i))).

Definition second_world : World MemoryRepository :=
  mkWorld (Some second_stripe) [mkMapping "alice" "cus_1"] []
    empty_repository [].

(** ** The rest of the service: unlinking per kind, construction, runs *)

(** One call of the public operations that touch the mapping collections,
    the client or the log. *)
Inductive Operation : Type :=
| OpLink (k : MappingKind) (participant externalId : string)
| OpUnlink (k : MappingKind) (externalId : string)
| OpWebhook (event : Event)
| OpConnect (email : string)
| OpFormat (subscriptionId : string).

Section Operations.

Context {R : Type} `{BillingRepository R}.

(** The two unlinking operations seen per mapping kind. *)
Definition unlink (k : MappingKind) (externalId : string) : M R unit :=
  match k with
  | CustomerKind => unlinkParticipantFromCustomer externalId
  | ConnectedAccountKind => unlinkParticipantFromConnectedAccount externalId
  end.

(** The world after a rejected unlinking call. *)
Definition unlink_rejected (k : MappingKind) (e : string) (w : World R)
  : World R :=
  add_log (LogError ("Error unlinking " ++ keyField k ++ " " ++ e ++ ": "
                     ++ message (MappingNotFound (keyField k) e))) w.

Definition set_stripe (s : option Stripe) (w : World R) : World R :=
  mkWorld s (customerMap w) (accountMap w) (repo w) (log w).

(** The constructor of [StripeService]: [stripeSecretKey] is
    [config.stripeSecretKey], [getNewStripe] the protected factory
    [new Stripe(secret)], which may throw.  The field [stripe] starts as
    [null]. *)
Definition StripeService_constructor (stripeSecretKey : option string)
    (getNewStripe : string -> Exc Stripe) : M R unit :=
  fun w =>
    try_catch
      (match stripeSecretKey with
       | Some key =>
           if truthy key then
             s <- call (getNewStripe key) ;;
             (fun w' => (inr tt, set_stripe (Some s) w'))
           else throw (mkError "Stripe secret key is not set in configuration.")
       | None => throw (mkError "Stripe secret key is not set in configuration.")
       end)
      (fun err =>
         Logger_error ("Error during Stripe service initialization: "
                       ++ message err))
      (set_stripe None w).

(** [getStripe()]: the client or [null]. *)
Definition StripeService_getStripe (w : World R) : option Stripe := stripe w.

(** The world an operation leaves, whatever it returns. *)
Definition run_operation (op : Operation) (w : World R) : World R :=
  match op with
  | OpLink k p e => snd (link k p e w)
  | OpUnlink k e => snd (unlink k e w)
  | OpWebhook event => snd (handleWebhook event w)
  | OpConnect email => snd (connect email w)
  | OpFormat i => snd (formatStripeSubscription i w)
  end.

Fixpoint run_operations (ops : list Operation) (w : World R) : World R :=
  match ops with
  | [] => w
  | op :: ops' => run_operations ops' (run_operation op w)
  end.

(** The information line a successful unlinking call logs. *)
Definition unlinked_line (k : MappingKind) (e : string) : LogEntry :=
  match k with
  | CustomerKind =>
      LogInfo ("Participant has been unlinked from stripeCustomerId " ++ e)
  | ConnectedAccountKind =>
      LogInfo ("Participant has been unlinked from connected account " ++ e)
  end.

(** An operation that changes nothing but the log, which grows. *)
Definition logs_only (w w' : World R) : Prop :=
  exists entries,
    w' = mkWorld (stripe w) (customerMap w) (accountMap w) (repo w)
           (log w ++ entries)%list.

(** What an operation may change besides the repository: the client and the
    collections stay, the log only grows. *)
Definition frames (w w' : World R) : Prop :=
  stripe w' = stripe w /\ customerMap w' = customerMap w
  /\ accountMap w' = accountMap w
  /\ exists entries, log w' = (log w ++ entries)%list.

End Operations.

(** ** The product service ([StripeProductCrudService.ts]) *)

Section Products.

Context {R : Type} `{BillingRepository R}.

(** [Stripe.Product], the parameter objects and the request options are
    passed through untouched. *)
Context {Product ProductCreateParams ProductUpdateParams RequestOptions : Type}.

(** [Stripe.ApiList<Stripe.Product>] and [Stripe.DeletedProduct]. *)
Record ApiList : Type := mkApiList { data : list Product }.

Record DeletedProduct : Type := mkDeletedProduct {
  del_id : string;
  del_deleted : bool }.

(** The [products] resource of the Stripe client: each call may throw. *)
Record ProductsClient : Type := mkProductsClient {
  products_create :
    ProductCreateParams -> option RequestOptions -> Exc Product;
  products_list : option RequestOptions -> Exc ApiList;
  products_retrieve : string -> option RequestOptions -> Exc Product;
  products_update :
    string -> ProductUpdateParams -> option RequestOptions -> Exc Product;
  products_del : string -> option RequestOptions -> Exc DeletedProduct }.

Record StripeProductCrudService : Type := mkProductService {
  stripeService : option ProductsClient }.

(** The constructor: [stripeInstance] is what
    [StripeService.retrieveServiceInstance().getStripe()] returned. *)
Definition StripeProductCrudService_constructor
    (stripeInstance : option ProductsClient) : Exc StripeProductCrudService :=
  match stripeInstance with
  | Some s => inr (mkProductService (Some s))
  | None => inl UninitializedGateway
  end.

(** [retrieveServiceInstance()]: the static [instance] is the state; a
    constructor that throws leaves it unset. *)
Definition StripeProductCrudService_retrieveServiceInstance
    (stripeInstance : option ProductsClient)
    (instance : option StripeProductCrudService)
  : Exc StripeProductCrudService * option StripeProductCrudService :=
  match instance with
  | Some service => (inr service, Some service)
  | None =>
      match StripeProductCrudService_constructor stripeInstance with
      | inr service => (inr service, Some service)
      | inl err => (inl err, None)
      end
  end.

(** [if (!this.stripeService) throw ...] followed by its use. *)
Definition getStripeService (this : StripeProductCrudService)
  : M R ProductsClient :=
  fun w =>
    match stripeService this with
    | Some s => (inr s, w)
    | None => (inl UninitializedGateway, w)
    end.

Definition createProduct (this : StripeProductCrudService)
    (productData : ProductCreateParams) (options : option RequestOptions)
  : M R (option Product) :=
  try_catch
    (s <- getStripeService this ;;
     product <- call (products_create s productData options) ;;
     ret (Some product))
    (fun err =>
       Logger_error ("Error creating product: " ++ message err) ;;
       ret None).

Definition listProducts (this : StripeProductCrudService)
    (options : option RequestOptions) : M R (option (list Product)) :=
  try_catch
    (s <- getStripeService this ;;
     products <- call (products_list s options) ;;
     ret (Some (data products)))
    (fun err =>
       Logger_error ("Error retrieving products: " ++ message err) ;;
       ret None).

Definition getProduct (this : StripeProductCrudService)
    (productId : string) (options : option RequestOptions)
  : M R (option Product) :=
  try_catch
    (s <- getStripeService this ;;
     product <- call (products_retrieve s productId options) ;;
     ret (Some product))
    (fun err =>
       Logger_error ("Error retrieving product: " ++ message err) ;;
       ret None).

Definition updateProduct (this : StripeProductCrudService)
    (productId : string) (updates : ProductUpdateParams)
    (options : option RequestOptions) : M R (option Product) :=
  try_catch
    (s <- getStripeService this ;;
     updatedProduct <- call (products_update s productId updates options) ;;
     ret (Some updatedProduct))
    (fun err =>
       Logger_error ("Error updating product: " ++ message err) ;;
       ret None).

Definition deleteProduct (this : StripeProductCrudService)
    (productId : string) (options : option RequestOptions) : M R bool :=
  try_catch
    (s <- getStripeService this ;;
     deletedProduct <- call (products_del s productId options) ;;
     ret (del_deleted deletedProduct))
    (fun err =>
       Logger_error ("Error deleting product: " ++ message err) ;;
       ret false).

(** What it means for an operation [run] of the service to pass a
    provider call through: it never throws; the provider's answer is
    returned (through [answer]) with the world untouched; a provider error
    or a missing client gives [fallback] and one logged line. *)
Definition passes_through {A B : Type} (this : StripeProductCrudService)
    (request : ProductsClient -> Exc A) (answer : A -> B) (fallback : B)
    (prefix : string) (run : M R B) (w : World R) : Prop :=
  (forall err, fst (run w) <> inl err)
  /\ (forall s x, stripeService this = Some s -> request s = inr x ->
        run w = (inr (answer x), w))
  /\ (forall s err, stripeService this = Some s -> request s = inl err ->
        run w = (inr fallback,
                 add_log (LogError (prefix ++ message err)) w))
  /\ (stripeService this = None ->
      run w = (inr fallback,
               add_log (LogError (prefix ++ message UninitializedGateway)) w)).

End Products.

Arguments ApiList : clear implicits.
Arguments DeletedProduct : clear implicits.
Arguments ProductsClient : clear implicits.
Arguments StripeProductCrudService : clear implicits.

(** ** The connected-account controllers *)

Section Controllers.

Context {R : Type} `{BillingRepository R}.

(** A connected account as the service returns it; it is only passed on. *)
Context {ConnectedAccount : Type}.

(** [req.params]. *)
Record Params : Type := mkParams {
  params_id : string;
  params_participant : string;
  params_stripeAccount : string }.

(** What [res.status(code).json(body)] sends. *)
Inductive Json : Type :=
| JsonAccount (account : ConnectedAccount)
| JsonAccounts (accounts : list ConnectedAccount)
| JsonMessage (msg : string).

Record Response : Type := mkResponse {
  res_status : Z;
  res_json : Json }.

(** [BillingConnectedAccountService]: its implementation is outside the
    sources; each method returns a value or [null], or throws. *)
Record BillingConnectedAccountService : Type := mkAccountService {
  listConnectedAccounts : Exc (option (list ConnectedAccount));
  getConnectedAccountById : string -> Exc (option ConnectedAccount);
  getConnectedAccountByParticipant : string -> Exc (option ConnectedAccount);
  getConnectedAccountByStripeAccount :
    string -> Exc (option ConnectedAccount) }.

Definition getConnectedAccounts
    (billingConnectedAccountService : BillingConnectedAccountService)
    (req : Params) : M R Response :=
  try_catch
    (connectedAccounts <-
       call (listConnectedAccounts billingConnectedAccountService) ;;
     match connectedAccounts with
     | Some accounts => ret (mkResponse 200 (JsonAccounts accounts))
     | None =>
         ret (mkResponse 404 (JsonMessage "Connected accounts not found."))
     end)
    (fun error =>
       Logger_error ("Error retrieving connected account: "
                     ++ message error) ;;
       ret (mkResponse 500 (JsonMessage (message error)))).

Definition getConnectedAccountById_controller
    (billingConnectedAccountService : BillingConnectedAccountService)
    (req : Params) : M R Response :=
  try_catch
    (let id := params_id req in
     connectedAccount <-
       call (getConnectedAccountById billingConnectedAccountService id) ;;
     match connectedAccount with
     | Some account => ret (mkResponse 200 (JsonAccount account))
     | None =>
         ret (mkResponse 404 (JsonMessage "Connected account not found."))
     end)
    (fun error =>
       Logger_error ("Error retrieving connected account: "
                     ++ message error) ;;
       ret (mkResponse 500 (JsonMessage (message error)))).

Definition getConnectedAccountByParticipant_controller
    (billingConnectedAccountService : BillingConnectedAccountService)
    (req : Params) : M R Response :=
  try_catch
    (let participant := params_participant req in
     connectedAccount <-
       call (getConnectedAccountByParticipant billingConnectedAccountService
               participant) ;;
     match connectedAccount with
     | Some account => ret (mkResponse 200 (JsonAccount account))
     | None =>
         ret (mkResponse 404 (JsonMessage "Connected account not found."))
     end)
    (fun error =>
       Logger_error ("Error retrieving connected account: "
                     ++ message error) ;;
       ret (mkResponse 500 (JsonMessage (message error)))).

Definition getConnectedAccountByStripeAccount_controller
    (billingConnectedAccountService : BillingConnectedAccountService)
    (req : Params) : M R Response :=
  try_catch
    (let stripeAccount := params_stripeAccount req in
     connectedAccount <-
       call (getConnectedAccountByStripeAccount billingConnectedAccountService
               stripeAccount) ;;
     match connectedAccount with
     | Some account => ret (mkResponse 200 (JsonAccount account))
     | None =>
         ret (mkResponse 404 (JsonMessage "Connected account not found."))
     end)
    (fun error =>
       Logger_error ("Error retrieving connected account: "
                     ++ message error) ;;
       ret (mkResponse 500 (JsonMessage (message error)))).

(** The response a controller owes to an answer of the service: 200 with
    the value, 404 for [null], 500 with the error's message, which is also
    logged. *)
Definition responds {A : Type} (answer : Exc (option A)) (body : A -> Json)
    (notFound : string) (run : M R Response) (w : World R) : Prop :=
  match answer with
  | inr (Some a) => run w = (inr (mkResponse 200 (body a)), w)
  | inr None => run w = (inr (mkResponse 404 (JsonMessage notFound)), w)
  | inl error =>
      run w = (inr (mkResponse 500 (JsonMessage (message error))),
               add_log (LogError ("Error retrieving connected account: "
                                  ++ message error)) w)
  end.

End Controllers.

Arguments Json : clear implicits.
Arguments Response : clear implicits.
Arguments BillingConnectedAccountService : clear implicits.

(** * Properties *)

(** ** The collections *)

Lemma findOne_key (e : string) (c : Collection) (m : Mapping) :
  Model.findOne e c = Some m -> externalId m = e.
Proof.
  unfold Model.findOne. intros Hf.
  apply find_some in Hf. destruct Hf as [_ Hk].
  now apply String.eqb_eq.
Qed.

Lemma findOne_None (e : string) (c : Collection) :
  Model.findOne e c = None <-> ~ In e (map externalId c).
Proof.
  unfold Model.findOne. induction c as [|m c IH]; simpl.
  - tauto.
  - destruct (String.eqb_spec (externalId m) e) as [Heq | Hne].
    + split; [discriminate | intros Hn; exfalso; apply Hn; now left].
    + rewrite IH. tauto.
Qed.

Lemma findOne_app (e : string) (c : Collection) (m : Mapping) :
  Model.findOne e (c ++ [m])%list =
  match Model.findOne e c with
  | Some x => Some x
  | None => if (externalId m =? e)%string then Some m else None
  end.
Proof.
  unfold Model.findOne. induction c as [|x c IH]; simpl.
  - reflexivity.
  - destruct (externalId x =? e)%string; [reflexivity | exact IH].
Qed.

Lemma unique_app (c : Collection) (m : Mapping) :
  Model.unique c -> Model.findOne (externalId m) c = None ->
  Model.unique (c ++ [m])%list.
Proof.
  unfold Model.unique. intros Hu Hn. rewrite findOne_None in Hn.
  rewrite map_app. simpl.
  induction c as [|x c IH]; simpl in *.
  - constructor; [tauto | constructor].
  - inversion Hu as [|? ? Hx Hc]; subst. constructor.
    + rewrite in_app_iff. simpl. intros [Hin | [Heq | []]].
      * now apply Hx.
      * apply Hn. left. now symmetry.
    + apply IH; [exact Hc | tauto].
Qed.

Lemma save_unique (field : string) (m : Mapping) (c : Collection) :
  Model.unique c -> Model.unique (snd (Model.save field m c)).
Proof.
  intros Hu. unfold Model.save.
  destruct (Model.findOne (externalId m) c) eqn:Hf; simpl.
  - exact Hu.
  - now apply unique_app.
Qed.

Lemma mapped_app (e : string) (c : Collection) (m : Mapping) :
  mapped e (c ++ [m])%list = mapped e c || (externalId m =? e)%string.
Proof.
  unfold mapped. rewrite findOne_app.
  destruct (Model.findOne e c); [reflexivity|].
  destruct (externalId m =? e)%string; reflexivity.
Qed.

Section LinkFacts.

Context {R : Type} `{BillingRepository R}.

Lemma collection_set_same (k : MappingKind) (c : Collection) (w : World R) :
  collection k (set_collection k c w) = c.
Proof. destruct k; reflexivity. Qed.

Lemma collection_set_other (k k' : MappingKind) (c : Collection) (w : World R) :
  k <> k' -> collection k' (set_collection k c w) = collection k' w.
Proof. destruct k, k'; intros Hk; try reflexivity; congruence. Qed.

(** What a linking call does, by cases on the collection. *)
Lemma link_cases (k : MappingKind) (p e : string) (w : World R) :
  link k p e w =
  if mapped e (collection k w)
  then (inl (AlreadyLinked (keyField k) e), rejected k p e w)
  else (inr tt, set_collection k (collection k w ++ [mkMapping p e])%list w).
Proof.
  unfold mapped.
  destruct k; unfold link, linkParticipantToCustomer,
    linkParticipantToConnectedAccount, try_catch, bind, Model_findOne,
    Model_save, Model.save, throw, ret, Logger_error, rejected; simpl;
    destruct (Model.findOne e _) eqn:Hf; simpl; try reflexivity;
    rewrite Hf; reflexivity.
Qed.

Lemma link_collection (k k' : MappingKind) (p e : string) (w : World R) :
  collection k' (snd (link k p e w)) =
  if mapped e (collection k w) then collection k' w
  else collection k' (set_collection k (collection k w ++ [mkMapping p e])%list w).
Proof.
  rewrite link_cases. destruct (mapped e (collection k w)); simpl.
  - destruct k'; reflexivity.
  - reflexivity.
Qed.

(** A mapped external id stays mapped through any linking call. *)
Lemma link_keeps_mapped (k k' : MappingKind) (p e e' : string) (w : World R) :
  mapped e' (collection k' w) = true ->
  mapped e' (collection k' (snd (link k p e w))) = true.
Proof.
  intros Hm. rewrite link_collection.
  destruct (mapped e (collection k w)); [exact Hm|].
  destruct k, k'; simpl in *; try exact Hm;
    rewrite mapped_app, Hm; reflexivity.
Qed.

Lemma links_keep_mapped (ops : list (MappingKind * string * string))
    (k' : MappingKind) (e' : string) (w : World R) :
  mapped e' (collection k' w) = true ->
  mapped e' (collection k' (links ops w)) = true.
Proof.
  revert w. induction ops as [|[[k p] e] ops IH]; intros w Hm; simpl.
  - exact Hm.
  - apply IH. now apply link_keeps_mapped.
Qed.

Lemma link_unique (k k' : MappingKind) (p e : string) (w : World R) :
  Model.unique (collection k' w) ->
  Model.unique (collection k' (snd (link k p e w))).
Proof.
  intros Hu. rewrite link_collection.
  destruct (mapped e (collection k w)) eqn:Hm; [exact Hu|].
  destruct k, k'; simpl in *; try exact Hu;
    (apply unique_app; [exact Hu|]); simpl;
    unfold mapped in Hm; destruct (Model.findOne e _); congruence.
Qed.

End LinkFacts.

(** ** Linking: external-id uniqueness *)

Section Linking.

Context {R : Type} `{BillingRepository R}.

(** C1: for either mapping kind, once [link(p1, e)] has succeeded, every
    later [link(p2, e)], whoever the participant and whatever linking calls
    came in between, fails with [AlreadyLinked] and leaves both mapping
    collections as they were; and every linking call preserves external-id
    uniqueness of each collection. *)
Theorem link_external_id_unique
    (k : MappingKind) (p1 p2 e : string)
    (between : list (MappingKind * string * string)) (w : World R) :
  fst (link k p1 e w) = inr tt ->
  let w1 := links between (snd (link k p1 e w)) in
  fst (link k p2 e w1) = inl (AlreadyLinked (keyField k) e)
  /\ (forall k', collection k' (snd (link k p2 e w1)) = collection k' w1)
  /\ (forall k' q e' (w0 : World R),
         Model.unique (collection k' w0) ->
         Model.unique (collection k' (snd (link k q e' w0)))).
Proof.
  intros Hok w1.
  assert (Hm : mapped e (collection k w1) = true).
  { subst w1. apply links_keep_mapped.
    rewrite link_cases in Hok |- *.
    destruct (mapped e (collection k w)); simpl in *; [discriminate|].
    rewrite collection_set_same, mapped_app. simpl.
    rewrite String.eqb_refl. apply orb_true_r. }
  repeat split.
  - rewrite link_cases, Hm. reflexivity.
  - intros k'. rewrite link_collection, Hm. reflexivity.
  - intros k' q e' w0. apply link_unique.
Qed.

End Linking.

Lemma link_external_id_unique_witness :
  fst (link CustomerKind "bob" "cus_9"
         (links [(ConnectedAccountKind, "carol", "acct_1");
                 (CustomerKind, "dave", "cus_3")]
            (snd (link CustomerKind "alice" "cus_9" sample_world))))
  = inl (AlreadyLinked "stripeCustomerId" "cus_9").
Proof.
  exact (proj1 (link_external_id_unique CustomerKind "alice" "bob" "cus_9"
                  [(ConnectedAccountKind, "carol", "acct_1");
                   (CustomerKind, "dave", "cus_3")]
                  sample_world eq_refl)).
Defined.

(** ** Round trips through the customer mapping *)

Lemma findOneAndDelete_unique (e : string) (c : Collection) :
  Model.unique c ->
  Model.findOne e (snd (Model.findOneAndDelete e c)) = None.
Proof.
  unfold Model.unique. induction c as [|m c IH]; intros Hu; simpl.
  - reflexivity.
  - inversion Hu as [|? ? Hm Hc]; subst.
    destruct (String.eqb_spec (externalId m) e) as [Heq | Hne]; simpl.
    + apply findOne_None. now rewrite <- Heq.
    + specialize (IH Hc).
      destruct (Model.findOneAndDelete e c) as [r c'']. simpl in *.
      unfold Model.findOne in *. simpl.
      destruct (String.eqb_spec (externalId m) e); [contradiction | exact IH].
Qed.

Section RoundTrip.

Context {R : Type} `{BillingRepository R}.

(** [link(p, e)] then [resolveParticipant(e)] gives [p]. *)
Lemma link_then_resolve (p e : string) (w : World R) :
  fst (linkParticipantToCustomer p e w) = inr tt ->
  fst (getRelatedParticipant e (snd (linkParticipantToCustomer p e w)))
  = inr p.
Proof.
  change (linkParticipantToCustomer p e w) with (link CustomerKind p e w).
  rewrite link_cases. unfold mapped.
  destruct (Model.findOne e (collection CustomerKind w)) eqn:Hf; simpl;
    [discriminate|]. intros _.
  unfold getRelatedParticipant, try_catch, bind, Model_findOne. simpl.
  simpl in Hf. rewrite findOne_app, Hf. simpl.
  rewrite String.eqb_refl. reflexivity.
Qed.

(** [unlink(e)] then [resolveParticipant(e)] fails with [NotFound], in a
    collection without duplicates. *)
Lemma unlink_then_resolve (e : string) (w : World R) :
  Model.unique (customerMap w) ->
  fst (getRelatedParticipant e (snd (unlinkParticipantFromCustomer e w)))
  = inl (NotFound e).
Proof.
  intros Hu.
  pose proof (findOneAndDelete_unique e _ Hu) as Hgone.
  unfold unlinkParticipantFromCustomer, getRelatedParticipant, try_catch,
    bind, Model_findOneAndDelete, Model_findOne, Logger_log, Logger_error,
    throw. simpl.
  destruct (Model.findOneAndDelete e (customerMap w)) as [[m|] c'];
    simpl in *; rewrite Hgone; reflexivity.
Qed.

(** In sequence, the insert of a linking call is never rejected: over a
    storage boundary that inserts unconditionally the call does the same. *)
Lemma link_storage_independent (k : MappingKind) (p e : string)
    (w : World R) :
  let '(pc, w1) := link_step (fun _ => Model.save_unchecked) k p e AtFind w in
  link_step (fun _ => Model.save_unchecked) k p e pc w1
  = (Finished (fst (link k p e w)), snd (link k p e w)).
Proof.
  rewrite link_cases. unfold mapped.
  unfold link_step, link_resume, Model_save_with, Model.save_unchecked,
    try_catch, bind, Model_findOne, throw, Logger_error, rejected. simpl.
  destruct (Model.findOne e (collection k w)); reflexivity.
Qed.

End RoundTrip.

(** ** Participant resolution *)

Section Resolution.

Context {R : Type} `{BillingRepository R}.

Lemma getRelatedParticipant_cases (i : string) (w : World R) :
  getRelatedParticipant i w =
  match Model.findOne i (customerMap w) with
  | Some m => (inr (m_participant m), w)
  | None => (inl (NotFound i), lookup_failed i w)
  end.
Proof.
  unfold getRelatedParticipant, try_catch, bind, Model_findOne. simpl.
  destruct (Model.findOne i (customerMap w)); reflexivity.
Qed.

(** No resolution ever touches the collections, the repository or the
    client. *)
Lemma getParticipant_reads_only (c : CustomerRef) (w : World R) :
  let w' := snd (getParticipant c w) in
  stripe w' = stripe w /\ customerMap w' = customerMap w
  /\ accountMap w' = accountMap w /\ repo w' = repo w.
Proof.
  unfold getParticipant, bind, call.
  destruct (customerId_of c) as [err | [i |]]; simpl; try tauto.
  destruct (truthy i); simpl; try tauto.
  rewrite getRelatedParticipant_cases.
  destruct (Model.findOne i (customerMap w)); simpl; tauto.
Qed.

(** C2, amended: a non-empty identity string is resolved through the
    customer mapping; an expanded object with [deleted = true] fails with
    [CustomerDeleted]; another expanded object carrying a non-empty id
    resolves that id through the mapping; null, an object without an id, an
    empty string and an empty id fail with [UnresolvableCustomer]; an id
    without a mapping fails with [NotFound], and no resolution modifies the
    mapping collections. *)
Theorem getParticipant_resolution (w : World R) :
  (forall s, s <> "" ->
     getParticipant (CustomerId s) w = getRelatedParticipant s w)
  /\ (forall o, deleted o = Some true ->
        fst (getParticipant (CustomerExpanded o) w) = inl CustomerDeleted)
  /\ (forall o i, deleted o <> Some true -> id o = Some i -> i <> "" ->
        getParticipant (CustomerExpanded o) w = getRelatedParticipant i w)
  /\ (forall o, deleted o <> Some true -> id o = None \/ id o = Some "" ->
        fst (getParticipant (CustomerExpanded o) w) = inl UnresolvableCustomer)
  /\ fst (getParticipant CustomerNull w) = inl UnresolvableCustomer
  /\ fst (getParticipant (CustomerId "") w) = inl UnresolvableCustomer
  /\ (forall i m, Model.findOne i (customerMap w) = Some m ->
        fst (getRelatedParticipant i w) = inr (m_participant m))
  /\ (forall i, Model.findOne i (customerMap w) = None ->
        fst (getRelatedParticipant i w) = inl (NotFound i))
  /\ (forall c, customerMap (snd (getParticipant c w)) = customerMap w
                /\ accountMap (snd (getParticipant c w)) = accountMap w).
Proof.
  assert (Ht : forall s, s <> "" -> truthy s = true).
  { intros s Hs. unfold truthy.
    destruct (String.eqb_spec s ""); [contradiction | reflexivity]. }
  repeat split.
  - intros s Hs. unfold getParticipant, bind, call; simpl.
    now rewrite (Ht s Hs).
  - intros o Hd. unfold getParticipant, bind, call, customerId_of.
    now rewrite Hd.
  - intros o i Hd Hi Hne.
    unfold getParticipant, bind, call, customerId_of. rewrite Hi.
    destruct (deleted o) as [[|]|]; try congruence; simpl;
      now rewrite (Ht i Hne).
  - intros o Hd Hi.
    unfold getParticipant, bind, call, customerId_of.
    destruct (deleted o) as [[|]|]; try congruence;
      destruct Hi as [Hi | Hi]; rewrite Hi; reflexivity.
  - intros i m Hf. rewrite getRelatedParticipant_cases, Hf. reflexivity.
  - intros i Hf. rewrite getRelatedParticipant_cases, Hf. reflexivity.
  - apply (getParticipant_reads_only c w).
  - apply (getParticipant_reads_only c w).
Qed.

End Resolution.

(** C2 as stated fails: the plain string [""] is not resolved through the
    customer mapping.  The mapping resolves it to [alice], yet
    [getParticipant] fails with [UnresolvableCustomer]. *)
Lemma getParticipant_empty_string_unresolved :
  fst (getRelatedParticipant "" empty_id_world) = inr "alice"
  /\ fst (getParticipant (CustomerId "") empty_id_world)
     = inl UnresolvableCustomer
  /\ ~ (forall (s : string) (w : World MemoryRepository),
          getParticipant (CustomerId s) w = getRelatedParticipant s w).
Proof.
  split; [reflexivity|]. split; [reflexivity|].
  intros Hall. specialize (Hall "" empty_id_world).
  apply (f_equal fst) in Hall. discriminate Hall.
Qed.

Lemma getParticipant_resolution_witness :
  getParticipant (CustomerId "cus_1") sample_world
  = getRelatedParticipant "cus_1" sample_world
  /\ fst (getRelatedParticipant "cus_1" sample_world) = inr "alice"
  /\ fst (getParticipant
            (CustomerExpanded (mkCustomerObject (Some true) (Some "cus_1")))
            sample_world) = inl CustomerDeleted
  /\ fst (getRelatedParticipant "cus_2" sample_world) = inl (NotFound "cus_2").
Proof.
  destruct (getParticipant_resolution sample_world)
    as (Hs & Hd & _ & _ & _ & _ & Hf & Hn & _).
  split; [apply Hs; discriminate|].
  split; [apply (Hf "cus_1" (mkMapping "alice" "cus_1")); reflexivity|].
  split; [apply Hd; reflexivity|].
  apply Hn; reflexivity.
Defined.

(** ** Translation *)

Section Translation.

Context {R : Type} `{BillingRepository R}.

Lemma getStripeSubscription_cases (subscriptionId : string) (w : World R) :
  getStripeSubscription subscriptionId w =
  match retrieval subscriptionId w with
  | inr raw => (inr (Some raw), w)
  | inl err =>
      (inr None,
       add_log (LogError ("Error retrieving Stripe subscription: "
                          ++ message err)) w)
  end.
Proof.
  unfold getStripeSubscription, retrieval, try_catch, bind, getStripe, call.
  destruct (stripe w) as [s|]; [|reflexivity].
  destruct (subscriptions_retrieve s subscriptionId); reflexivity.
Qed.

(** A successful resolution leaves the world as it was. *)
Lemma getParticipant_ok (c : CustomerRef) (w : World R) (p : string) :
  fst (getParticipant c w) = inr p -> getParticipant c w = (inr p, w).
Proof.
  unfold getParticipant, bind, call.
  destruct (customerId_of c) as [err | [i |]]; simpl; try discriminate.
  destruct (truthy i); simpl; try discriminate.
  rewrite getRelatedParticipant_cases.
  destruct (Model.findOne i (customerMap w)); simpl; [|discriminate].
  intros Hp. now rewrite Hp.
Qed.

Lemma formatStripeSubscription_ok (subscriptionId : string) (w : World R)
    (raw : RawSubscription) (p : string) :
  retrieval subscriptionId w = inr raw ->
  fst (getParticipant (customer raw) w) = inr p ->
  formatStripeSubscription subscriptionId w
  = (inr (Some (translated raw p)), w).
Proof.
  intros Hr Hp. unfold formatStripeSubscription, bind.
  rewrite getStripeSubscription_cases, Hr.
  rewrite (getParticipant_ok _ _ _ Hp). reflexivity.
Qed.

Lemma formatStripeSubscription_unresolved (subscriptionId : string)
    (w : World R) (raw : RawSubscription) (err : Error) :
  retrieval subscriptionId w = inr raw ->
  fst (getParticipant (customer raw) w) = inl err ->
  formatStripeSubscription subscriptionId w
  = (inl err, snd (getParticipant (customer raw) w)).
Proof.
  intros Hr Hp. unfold formatStripeSubscription, bind.
  rewrite getStripeSubscription_cases, Hr.
  destruct (getParticipant (customer raw) w) as [[e | q] w']; simpl in *;
    congruence.
Qed.

Lemma formatStripeSubscription_unretrieved (subscriptionId : string)
    (w : World R) (err : Error) :
  retrieval subscriptionId w = inl err ->
  formatStripeSubscription subscriptionId w
  = (inr None,
     add_log (LogError ("Error retrieving Stripe subscription: "
                        ++ message err)) w).
Proof.
  intros Hr. unfold formatStripeSubscription, bind.
  rewrite getStripeSubscription_cases, Hr. reflexivity.
Qed.

(** C3: for a raw subscription the gateway retrieves and whose customer
    resolves, the translated record has [isActive = true] exactly when the
    raw status is ['active'] and [false] for every other status; and two
    translations of the same raw subscription, in whatever worlds earlier
    calls have left, agree on [isActive] and on both period bounds. *)
Theorem formatStripeSubscription_isActive
    (subscriptionId : string) (raw : RawSubscription)
    (w w' : World R) (p p' : string) :
  retrieval subscriptionId w = inr raw ->
  fst (getParticipant (customer raw) w) = inr p ->
  retrieval subscriptionId w' = inr raw ->
  fst (getParticipant (customer raw) w') = inr p' ->
  exists sub sub',
    fst (formatStripeSubscription subscriptionId w) = inr (Some sub)
    /\ fst (formatStripeSubscription subscriptionId w') = inr (Some sub')
    /\ (isActive sub = true <-> status raw = "active")
    /\ (isActive sub = false <-> status raw <> "active")
    /\ isActive sub' = isActive sub
    /\ startDate (details sub') = startDate (details sub)
    /\ endDate (details sub') = endDate (details sub).
Proof.
  intros Hr Hp Hr' Hp'.
  exists (translated raw p), (translated raw p').
  rewrite (formatStripeSubscription_ok _ _ _ _ Hr Hp).
  rewrite (formatStripeSubscription_ok _ _ _ _ Hr' Hp').
  simpl. repeat split; try reflexivity;
    destruct (String.eqb_spec (status raw) "active"); congruence.
Qed.

(** C7, amended: when the gateway cannot retrieve the raw subscription,
    [formatStripeSubscription] does not throw: it logs the retrieval error
    and returns [null]; it is the caller [registerSubscription] that turns
    the [null] into a "not found or invalid" error. *)
Theorem formatStripeSubscription_unretrievable
    (subscription : RawSubscription) (w : World R) (err : Error) :
  retrieval (sub_id subscription) w = inl err ->
  formatStripeSubscription (sub_id subscription) w
  = (inr None,
     add_log (LogError ("Error retrieving Stripe subscription: "
                        ++ message err)) w)
  /\ fst (registerSubscription_try subscription w) = inl SubscriptionNotFound.
Proof.
  intros Hr. split.
  - now apply formatStripeSubscription_unretrieved.
  - unfold registerSubscription_try, bind.
    rewrite (formatStripeSubscription_unretrieved _ _ _ Hr). reflexivity.
Qed.

(** Within the range of a [Date], the time value is the number given. *)
Lemma new_Date_in_range (v : Z) :
  Z.abs v <= maxTimeValue -> timeValue (new_Date v) = Some v.
Proof.
  intros Hv. unfold new_Date. simpl.
  destruct (Z.leb_spec (Z.abs v) maxTimeValue); [reflexivity | lia].
Qed.

(** C8, amended: for every retrievable raw subscription with a resolvable
    customer, [details.startDate] and [details.endDate] are the dates
    constructed from [current_period_start * 1000] and
    [current_period_end * 1000], i.e. the instants seconds times 1000 ms
    whenever these lie in the range of a [Date]; in particular 1700000000
    yields 2023-11-14T22:13:20Z and 1702592000 yields
    2023-12-14T22:13:20Z. *)
Theorem formatStripeSubscription_period
    (subscriptionId : string) (raw : RawSubscription) (w : World R)
    (p : string) :
  retrieval subscriptionId w = inr raw ->
  fst (getParticipant (customer raw) w) = inr p ->
  exists sub,
    fst (formatStripeSubscription subscriptionId w) = inr (Some sub)
    /\ startDate (details sub) = new_Date (current_period_start raw * 1000)
    /\ endDate (details sub)
       = Some (new_Date (current_period_end raw * 1000))
    /\ (Z.abs (current_period_start raw * 1000) <= maxTimeValue ->
        timeValue (startDate (details sub))
        = Some (current_period_start raw * 1000))
    /\ (Z.abs (current_period_end raw * 1000) <= maxTimeValue ->
        option_map timeValue (endDate (details sub))
        = Some (Some (current_period_end raw * 1000)))
    /\ (current_period_start raw = 1700000000 ->
        toUTC (startDate (details sub))
        = Some (mkUTC 2023 11 14 22 13 20 0))
    /\ (current_period_end raw = 1702592000 ->
        option_map toUTC (endDate (details sub))
        = Some (Some (mkUTC 2023 12 14 22 13 20 0))).
Proof.
  intros Hr Hp. exists (translated raw p).
  rewrite (formatStripeSubscription_ok _ _ _ _ Hr Hp).
  cbn [fst translated details startDate endDate option_map].
  repeat split.
  - intros Hv. apply (new_Date_in_range _ Hv).
  - intros Hv. now rewrite (new_Date_in_range _ Hv).
  - intros Hs. rewrite Hs. reflexivity.
  - intros He. rewrite He. reflexivity.
Qed.

End Translation.

(** The calendar reading agrees with [Date.UTC] on the instants of the
    scenario and on a few landmarks. *)
Example utcFields_epoch : utcFields 0 = mkUTC 1970 1 1 0 0 0 0.
Proof. reflexivity. Qed.

Example utcFields_leap_day :
  utcFields (Date_UTC 2024 2 29 23 59 59) = mkUTC 2024 2 29 23 59 59 0.
Proof. reflexivity. Qed.

Example utcFields_before_epoch :
  utcFields (-1) = mkUTC 1969 12 31 23 59 59 999.
Proof. reflexivity. Qed.

(** The two calendar conversions are inverse on every day from 1970-01-01
    to the year 2106, and the civil dates are well-formed. *)
Lemma civil_days_roundtrip :
  all_days (Z.to_nat 50000) 0
    (fun day =>
       let '(y, m, d) := civil_from_days day in
       (days_from_civil y m d =? day) && (1 <=? m) && (m <=? 12)
       && (1 <=? d) && (d <=? 31)) = true.
Proof. vm_compute. reflexivity. Qed.

Example Date_UTC_period_start :
  Date_UTC 2023 11 14 22 13 20 = 1700000000 * 1000.
Proof. reflexivity. Qed.

Example Date_UTC_period_end :
  Date_UTC 2023 12 14 22 13 20 = 1702592000 * 1000.
Proof. reflexivity. Qed.

Lemma formatStripeSubscription_isActive_witness :
  exists sub sub',
    fst (formatStripeSubscription "sub_1" sample_world) = inr (Some sub)
    /\ fst (formatStripeSubscription "sub_1"
              (snd (link ConnectedAccountKind "bob" "acct_1" sample_world)))
       = inr (Some sub')
    /\ (isActive sub = true <-> status sub_1 = "active")
    /\ (isActive sub = false <-> status sub_1 <> "active")
    /\ isActive sub' = isActive sub
    /\ startDate (details sub') = startDate (details sub)
    /\ endDate (details sub') = endDate (details sub).
Proof.
  apply (formatStripeSubscription_isActive "sub_1" sub_1 sample_world
           (snd (link ConnectedAccountKind "bob" "acct_1" sample_world))
           "alice" "alice"); reflexivity.
Defined.

(** C7 as stated fails: with a gateway that cannot retrieve [sub_1],
    [formatStripeSubscription] returns [null] and no error reaches its
    caller. *)
Lemma formatStripeSubscription_returns_null :
  retrieval "sub_1" offline_world = inl (mkError "connection refused")
  /\ fst (formatStripeSubscription "sub_1" offline_world) = inr None
  /\ ~ (exists err,
          fst (formatStripeSubscription "sub_1" offline_world) = inl err).
Proof.
  split; [reflexivity|]. split; [reflexivity|].
  intros [err Herr]. discriminate Herr.
Qed.

Lemma formatStripeSubscription_unretrievable_witness :
  formatStripeSubscription "sub_1" offline_world
  = (inr None,
     add_log (LogError ("Error retrieving Stripe subscription: "
                        ++ "connection refused")) offline_world)
  /\ fst (registerSubscription_try sub_1 offline_world)
     = inl SubscriptionNotFound.
Proof.
  apply (formatStripeSubscription_unretrievable sub_1 offline_world
           (mkError "connection refused")).
  reflexivity.
Defined.

(** C8 as stated fails on its second instance: the end of the period
    1702592000 is 2023-12-14T22:13:20Z, not 2023-12-15T02:33:20Z, which is
    15600 seconds later. *)
Lemma formatStripeSubscription_endDate_instant :
  exists sub,
    fst (formatStripeSubscription "sub_1" sample_world) = inr (Some sub)
    /\ current_period_end sub_1 = 1702592000
    /\ endDate (details sub) <> Some (new_Date (Date_UTC 2023 12 15 2 33 20))
    /\ option_map toUTC (endDate (details sub))
       = Some (Some (mkUTC 2023 12 14 22 13 20 0))
    /\ Date_UTC 2023 12 15 2 33 20 = (1702592000 + 15600) * 1000.
Proof.
  exists (translated sub_1 "alice").
  repeat split; try reflexivity.
  intros Heq. discriminate Heq.
Qed.

Lemma formatStripeSubscription_period_witness :
  exists sub,
    fst (formatStripeSubscription "sub_1" sample_world) = inr (Some sub)
    /\ toUTC (startDate (details sub)) = Some (mkUTC 2023 11 14 22 13 20 0)
    /\ option_map toUTC (endDate (details sub))
       = Some (Some (mkUTC 2023 12 14 22 13 20 0)).
Proof.
  destruct (formatStripeSubscription_period "sub_1" sub_1 sample_world
              "alice" eq_refl eq_refl)
    as (sub & Hf & _ & _ & _ & _ & Hs & He).
  exists sub. split; [exact Hf|].
  split; [apply Hs; reflexivity | apply He; reflexivity].
Defined.

(** ** Event handling *)

Section Events.

Context {R : Type} `{BillingRepository R}.

Lemma add_log_repo (entry : LogEntry) (w : World R) :
  repo (add_log entry w) = repo w.
Proof. reflexivity. Qed.

(** Translation never writes to the repository. *)
Lemma formatStripeSubscription_repo (subscriptionId : string) (w : World R) :
  repo (snd (formatStripeSubscription subscriptionId w)) = repo w.
Proof.
  destruct (retrieval subscriptionId w) as [err | raw] eqn:Hr.
  - rewrite (formatStripeSubscription_unretrieved _ _ _ Hr). reflexivity.
  - destruct (fst (getParticipant (customer raw) w)) as [err | p] eqn:Hp.
    + rewrite (formatStripeSubscription_unresolved _ _ _ _ Hr Hp).
      apply (getParticipant_reads_only (customer raw) w).
    + rewrite (formatStripeSubscription_ok _ _ _ _ Hr Hp). reflexivity.
Qed.

Lemma registerSubscription_returns (raw : RawSubscription) (w : World R) :
  fst (registerSubscription raw w) = inr tt.
Proof.
  unfold registerSubscription, try_catch.
  destruct (registerSubscription_try raw w) as [[err | []] w']; reflexivity.
Qed.

Lemma unregisterSubscription_returns (raw : RawSubscription) (w : World R) :
  fst (unregisterSubscription raw w) = inr tt.
Proof.
  unfold unregisterSubscription, try_catch.
  destruct (unregisterSubscription_try raw w) as [[err | []] w']; reflexivity.
Qed.

(** What the [catch] of each handler does with the error of its [try]. *)
Lemma registerSubscription_catch (raw : RawSubscription) (w : World R)
    (err : Error) :
  fst (registerSubscription_try raw w) = inl err ->
  registerSubscription raw w
  = (inr tt,
     add_log (LogError ("Error registering subscription " ++ sub_id raw
                        ++ ": " ++ message err))
       (snd (registerSubscription_try raw w))).
Proof.
  unfold registerSubscription, try_catch.
  destruct (registerSubscription_try raw w) as [[e | []] w']; simpl;
    [|discriminate].
  intros He. injection He as ->. reflexivity.
Qed.

Lemma unregisterSubscription_catch (raw : RawSubscription) (w : World R)
    (err : Error) :
  fst (unregisterSubscription_try raw w) = inl err ->
  unregisterSubscription raw w
  = (inr tt,
     add_log (LogError ("Error unregistering subscription " ++ sub_id raw
                        ++ ": " ++ message err))
       (snd (unregisterSubscription_try raw w))).
Proof.
  unfold unregisterSubscription, try_catch.
  destruct (unregisterSubscription_try raw w) as [[e | []] w']; simpl;
    [|discriminate].
  intros He. injection He as ->. reflexivity.
Qed.

Lemma handleWebhook_catch (event : Event) (w : World R) (err : Error) :
  fst (handleWebhook_try event w) = inl err ->
  handleWebhook event w
  = (inr tt,
     add_log (LogError ("Error handling Stripe webhook: " ++ message err))
       (snd (handleWebhook_try event w))).
Proof.
  unfold handleWebhook, try_catch.
  destruct (handleWebhook_try event w) as [[e | []] w']; simpl;
    [|discriminate].
  intros He. injection He as ->. reflexivity.
Qed.

(** C4: [handleWebhook] returns normally for every event in every world;
    an error thrown while classifying the event, or inside the handling of
    a created or deleted subscription (fetch, translation, persistence), is
    caught and logged with the subscription id and the error message; and
    an event kind without a case is logged as unhandled and changes nothing
    else. *)
Theorem handleWebhook_never_throws (event : Event) (w : World R) :
  fst (handleWebhook event w) = inr tt
  /\ fst (registerSubscription (data_object event) w) = inr tt
  /\ fst (unregisterSubscription (data_object event) w) = inr tt
  /\ (forall err, fst (handleWebhook_try event w) = inl err ->
        snd (handleWebhook event w)
        = add_log (LogError ("Error handling Stripe webhook: "
                             ++ message err))
            (snd (handleWebhook_try event w)))
  /\ (forall err,
        fst (registerSubscription_try (data_object event) w) = inl err ->
        snd (registerSubscription (data_object event) w)
        = add_log (LogError ("Error registering subscription "
                             ++ sub_id (data_object event) ++ ": "
                             ++ message err))
            (snd (registerSubscription_try (data_object event) w)))
  /\ (forall err,
        fst (unregisterSubscription_try (data_object event) w) = inl err ->
        snd (unregisterSubscription (data_object event) w)
        = add_log (LogError ("Error unregistering subscription "
                             ++ sub_id (data_object event) ++ ": "
                             ++ message err))
            (snd (unregisterSubscription_try (data_object event) w)))
  /\ (stripe w = None ->
        handleWebhook event w
        = (inr tt,
           add_log (LogError ("Error handling Stripe webhook: "
                              ++ message UninitializedGateway)) w))
  /\ (stripe w <> None -> recognized (event_type event) = false ->
        handleWebhook event w
        = (inr tt,
           add_log (LogInfo ("Unhandled event type " ++ event_type event))
             w)).
Proof.
  split.
  { unfold handleWebhook, try_catch.
    destruct (handleWebhook_try event w) as [[err | []] w']; reflexivity. }
  split; [apply registerSubscription_returns|].
  split; [apply unregisterSubscription_returns|].
  split.
  { intros err He. now rewrite (handleWebhook_catch _ _ _ He). }
  split.
  { intros err He. now rewrite (registerSubscription_catch _ _ _ He). }
  split.
  { intros err He. now rewrite (unregisterSubscription_catch _ _ _ He). }
  split.
  - intros Hs.
    unfold handleWebhook, handleWebhook_try, try_catch, bind, getStripe.
    rewrite Hs. reflexivity.
  - intros Hs Hk.
    unfold handleWebhook, handleWebhook_try, try_catch, bind, getStripe.
    destruct (stripe w) as [s|]; [|congruence].
    unfold recognized in Hk.
    apply orb_false_iff in Hk. destruct Hk as [Hk Hc].
    apply orb_false_iff in Hk. destruct Hk as [Hu Hd].
    rewrite Hu, Hd, Hc. reflexivity.
Qed.

(** With a client in place, the three subscription event kinds are
    dispatched to their handlers. *)
Lemma handleWebhook_dispatch (event : Event) (w : World R) :
  stripe w <> None ->
  handleWebhook event w =
  if (event_type event =? "customer.subscription.updated")%string
  then (inr tt, w)
  else if (event_type event =? "customer.subscription.deleted")%string
  then unregisterSubscription (data_object event) w
  else if (event_type event =? "customer.subscription.created")%string
  then registerSubscription (data_object event) w
  else (inr tt,
        add_log (LogInfo ("Unhandled event type " ++ event_type event)) w).
Proof.
  intros Hs.
  unfold handleWebhook, handleWebhook_try, try_catch, bind, getStripe.
  destruct (stripe w) as [s|]; [|congruence].
  destruct (event_type event =? "customer.subscription.updated")%string;
    [reflexivity|].
  destruct (event_type event =? "customer.subscription.deleted")%string.
  - pose proof (unregisterSubscription_returns (data_object event) w) as Hr.
    destruct (unregisterSubscription (data_object event) w) as [[e | []] w'];
      simpl in Hr; [discriminate | reflexivity].
  - destruct (event_type event =? "customer.subscription.created")%string;
      [|reflexivity].
    pose proof (registerSubscription_returns (data_object event) w) as Hr.
    destruct (registerSubscription (data_object event) w) as [[e | []] w'];
      simpl in Hr; [discriminate | reflexivity].
Qed.

(** C5: handling a created subscription always returns; when fetch,
    participant resolution and translation succeed, the repository is left
    as one call of [addSubscriptions] with the one-element batch leaves
    it; when any of them fails, the [try] block throws and the repository
    is left untouched.  The mapping collections are never written. *)
Theorem registerSubscription_atomic (raw : RawSubscription) (w : World R) :
  fst (registerSubscription raw w) = inr tt
  /\ (forall sub,
        fst (formatStripeSubscription (sub_id raw) w) = inr (Some sub) ->
        repo (snd (registerSubscription raw w))
        = snd (addSubscriptions [sub] (repo w)))
  /\ ((forall sub,
         fst (formatStripeSubscription (sub_id raw) w) <> inr (Some sub)) ->
      (exists err, fst (registerSubscription_try raw w) = inl err)
      /\ repo (snd (registerSubscription raw w)) = repo w).
Proof.
  split; [apply registerSubscription_returns|].
  pose proof (formatStripeSubscription_repo (sub_id raw) w) as Hrepo.
  unfold registerSubscription, registerSubscription_try, try_catch, bind,
    sync_addSubscriptions, throw.
  destruct (formatStripeSubscription (sub_id raw) w) as [[err | [s |]] w'];
    simpl in *.
  - split; [discriminate|]. intros _. split; [now exists err | exact Hrepo].
  - split.
    + intros sub Hs. injection Hs as <-. rewrite Hrepo.
      destruct (addSubscriptions [s] (repo w)) as [[e | []] r']; reflexivity.
    + intros Hn. exfalso. now apply (Hn s).
  - split; [discriminate|]. intros _.
    split; [now exists SubscriptionNotFound | exact Hrepo].
Qed.

(** C6: for a deleted subscription without a matching record the [try]
    block fails with [SubscriptionRecordNotFound], which is logged, and the
    repository is not touched; when a matching record exists, the
    repository is left as [removeSubscription] of exactly that record's
    internal id leaves it.  Internal ids are generated by the store and
    render as non-empty strings; the guard of the code on an empty
    rendering, which no stored record takes, fails with "missing or
    invalid" and does not touch the repository either. *)
Theorem unregisterSubscription_guard (raw : RawSubscription) (w : World R) :
  fst (unregisterSubscription raw w) = inr tt
  /\ (findOneByStripeId (sub_id raw) (repo w) = inr None ->
      fst (unregisterSubscription_try raw w)
      = inl (SubscriptionRecordNotFound (sub_id raw))
      /\ snd (unregisterSubscription raw w)
         = add_log (LogError ("Error unregistering subscription "
                              ++ sub_id raw ++ ": "
                              ++ message (SubscriptionRecordNotFound
                                            (sub_id raw)))) w)
  /\ (forall doc,
        findOneByStripeId (sub_id raw) (repo w) = inr (Some doc) ->
        doc_id doc <> "" ->
        repo (snd (unregisterSubscription raw w))
        = snd (removeSubscription (doc_id doc) (repo w)))
  /\ (forall doc,
        findOneByStripeId (sub_id raw) (repo w) = inr (Some doc) ->
        doc_id doc = "" ->
        fst (unregisterSubscription_try raw w) = inl InvalidSubscriptionId
        /\ repo (snd (unregisterSubscription raw w)) = repo w).
Proof.
  split; [apply unregisterSubscription_returns|].
  unfold unregisterSubscription, unregisterSubscription_try, try_catch, bind,
    SubscriptionModel_findOne, sync_removeSubscription, throw.
  split; [|split].
  - intros Hf. rewrite Hf. split; reflexivity.
  - intros doc Hf Hne. rewrite Hf.
    unfold truthy. destruct (String.eqb_spec (doc_id doc) "");
      [contradiction|]. simpl.
    destruct (removeSubscription (doc_id doc) (repo w)) as [[e | []] r'];
      reflexivity.
  - intros doc Hf He. rewrite Hf, He. split; reflexivity.
Qed.

(** C10: [connect] never throws; whenever creating the customer fails, be
    it for a missing client or for an error of the provider call, it
    returns [null], so that two failures of different causes return the
    same value. *)
Theorem connect_never_throws (email : string) (w : World R) :
  (exists r, fst (connect email w) = inr r)
  /\ (forall err, creation email w = inl err ->
        fst (connect email w) = inr None)
  /\ (forall c, creation email w = inr c ->
        connect email w = (inr (Some c), w))
  /\ (forall email' (w' : World R) err err',
        creation email w = inl err -> creation email' w' = inl err' ->
        fst (connect email w) = fst (connect email' w')).
Proof.
  assert (Hfail : forall e (v : World R) err,
             creation e v = inl err -> fst (connect e v) = inr None).
  { intros e v err. unfold creation, connect, try_catch, bind, getStripe, call.
    destruct (stripe v) as [s|]; [|reflexivity].
    destruct (customers_create s e); [reflexivity | discriminate]. }
  repeat split.
  - unfold connect, try_catch, bind, getStripe, call.
    destruct (stripe w) as [s|]; [|now exists None].
    destruct (customers_create s email) as [e | c];
      [now exists None | now exists (Some c)].
  - apply Hfail.
  - unfold creation, connect, try_catch, bind, getStripe, call.
    destruct (stripe w) as [s|]; [|discriminate].
    intros c Hc. rewrite Hc. reflexivity.
  - intros email' w' err err' He He'.
    rewrite (Hfail _ _ _ He), (Hfail _ _ _ He'). reflexivity.
Qed.

End Events.

(** ** Concurrent linking calls *)

Section Race.

Context {R : Type} `{BillingRepository R}.

(** Run to completion without interruption, the two steps of a call are the
    linking operation itself. *)
Lemma link_step_sequential (k : MappingKind) (p e : string) (w : World R) :
  let '(pc, w1) := link_step Model.save k p e AtFind w in
  link_step Model.save k p e pc w1
  = (Finished (fst (link k p e w)), snd (link k p e w)).
Proof.
  destruct k; unfold link_step, link_resume, Model_save_with, link,
    linkParticipantToCustomer, linkParticipantToConnectedAccount, try_catch,
    bind, Model_findOne, Model_save, Model.save, throw, ret, Logger_error;
    simpl; destruct (Model.findOne e _) eqn:Hf; simpl; try reflexivity;
    rewrite Hf; reflexivity.
Qed.

Lemma link_step_cases (k : MappingKind) (p e : string) (pc : LinkPc)
    (w : World R) :
  link_step Model.save k p e pc w =
  match pc with
  | AtFind => (AtSave (Model.findOne e (collection k w)), w)
  | AtSave (Some _) =>
      (Finished (inl (AlreadyLinked (keyField k) e)), rejected k p e w)
  | AtSave None =>
      if mapped e (collection k w)
      then (Finished (inl (AlreadyLinked (keyField k) e)), rejected k p e w)
      else (Finished (inr tt),
            set_collection k (collection k w ++ [mkMapping p e])%list w)
  | Finished r => (Finished r, w)
  end.
Proof.
  destruct pc as [|[m|]|r]; try reflexivity.
  unfold link_step, link_resume, Model_save_with, try_catch, Model.save,
    mapped, Logger_error, bind, throw, rejected. simpl.
  destruct (Model.findOne e (collection k w)); [|reflexivity].
  destruct k; reflexivity.
Qed.

Lemma pc_ok_mono (k : MappingKind) (e : string) (pc : LinkPc)
    (c c' : Collection) :
  (mapped e c = true -> mapped e c' = true) ->
  pc_ok k e pc c -> pc_ok k e pc c'.
Proof.
  intros Hm. destruct pc as [|[m|]|[err|u]]; simpl; tauto.
Qed.

Lemma link_step_ok (k : MappingKind) (p e : string) (pc : LinkPc)
    (w : World R) :
  pc_ok k e pc (collection k w) ->
  let st := link_step Model.save k p e pc w in
  pc_ok k e (fst st) (collection k (snd st))
  /\ (mapped e (collection k w) = true ->
      mapped e (collection k (snd st)) = true)
  /\ (Nat.b2n (won (fst st)) + Nat.b2n (mapped e (collection k w))
      = Nat.b2n (won pc) + Nat.b2n (mapped e (collection k (snd st))))%nat.
Proof.
  intros Hok. rewrite link_step_cases.
  destruct pc as [|[m|]|[err|u]]; simpl in *.
  - unfold mapped. destruct (Model.findOne e (collection k w)); simpl; tauto.
  - destruct k; simpl in *; rewrite Hok; tauto.
  - destruct (mapped e (collection k w)) eqn:Hm; simpl.
    + destruct k; simpl in *; rewrite Hm; tauto.
    + rewrite collection_set_same, mapped_app, Hm. simpl.
      rewrite String.eqb_refl. simpl. repeat split; discriminate.
  - tauto.
  - rewrite Hok. tauto.
Qed.

Lemma link_step_unique (k k' : MappingKind) (p e : string) (pc : LinkPc)
    (w : World R) :
  Model.unique (collection k' w) ->
  Model.unique (collection k' (snd (link_step Model.save k p e pc w))).
Proof.
  intros Hu. rewrite link_step_cases.
  destruct pc as [|[m|]|r]; simpl; try exact Hu;
    try (destruct k'; exact Hu).
  destruct (mapped e (collection k w)) eqn:Hm; simpl.
  - destruct k'; exact Hu.
  - destruct k, k'; simpl in *; try exact Hu;
      (apply unique_app; [exact Hu|]); simpl;
      unfold mapped in Hm; destruct (Model.findOne e _); congruence.
Qed.

Lemma race_inv_step (k : MappingKind) (p1 p2 e : string) (initially : bool)
    (first : bool) (pc1 pc2 : LinkPc) (w : World R) :
  race_inv k e initially (pc1, pc2, w) ->
  race_inv k e initially
    (if first
     then (fst (link_step Model.save k p1 e pc1 w), pc2,
           snd (link_step Model.save k p1 e pc1 w))
     else (pc1, fst (link_step Model.save k p2 e pc2 w),
           snd (link_step Model.save k p2 e pc2 w))).
Proof.
  intros (H1 & H2 & Hn). destruct first.
  - destruct (link_step_ok k p1 e pc1 w H1) as (Hok & Hmono & Hcount).
    repeat split; [exact Hok | now apply (pc_ok_mono k e pc2 _ _ Hmono) |].
    lia.
  - destruct (link_step_ok k p2 e pc2 w H2) as (Hok & Hmono & Hcount).
    repeat split; [now apply (pc_ok_mono k e pc1 _ _ Hmono) | exact Hok |].
    lia.
Qed.

Lemma race_unfold (k : MappingKind) (p1 p2 e : string) (first : bool)
    (schedule : list bool) (pc1 pc2 : LinkPc) (w : World R) :
  race Model.save k p1 p2 e (first :: schedule) (pc1, pc2, w)
  = race Model.save k p1 p2 e schedule
      (if first
       then (fst (link_step Model.save k p1 e pc1 w), pc2,
             snd (link_step Model.save k p1 e pc1 w))
       else (pc1, fst (link_step Model.save k p2 e pc2 w),
             snd (link_step Model.save k p2 e pc2 w))).
Proof.
  simpl. destruct first.
  - destruct (link_step Model.save k p1 e pc1 w); reflexivity.
  - destruct (link_step Model.save k p2 e pc2 w); reflexivity.
Qed.

Lemma race_inv_run (k : MappingKind) (p1 p2 e : string) (initially : bool)
    (schedule : list bool) (st : LinkPc * LinkPc * World R) :
  race_inv k e initially st ->
  race_inv k e initially (race Model.save k p1 p2 e schedule st).
Proof.
  revert st. induction schedule as [|first schedule IH]; intros st Hinv.
  - exact Hinv.
  - destruct st as [[pc1 pc2] w]. rewrite race_unfold.
    apply IH. now apply race_inv_step.
Qed.

Lemma race_unique (k k' : MappingKind) (p1 p2 e : string)
    (schedule : list bool) (st : LinkPc * LinkPc * World R) :
  Model.unique (collection k' (snd st)) ->
  Model.unique
    (collection k' (snd (race Model.save k p1 p2 e schedule st))).
Proof.
  revert st. induction schedule as [|first schedule IH]; intros st Hu.
  - exact Hu.
  - destruct st as [[pc1 pc2] w]. rewrite race_unfold.
    apply IH. destruct first; simpl; now apply link_step_unique.
Qed.

(** C9: with the insert of the storage boundary an atomic
    compare-and-insert, two concurrent calls [link(p1, e)] and
    [link(p2, e)], interleaved in any way, never both win; a call that
    finishes without winning observes [AlreadyLinked]; external-id
    uniqueness of each collection is preserved; and when both have finished
    and [e] was free, exactly one has won. *)
Theorem link_race_at_most_one_winner
    (k : MappingKind) (p1 p2 e : string) (schedule : list bool)
    (w : World R) :
  let st := race Model.save k p1 p2 e schedule (AtFind, AtFind, w) in
  let pc1 := fst (fst st) in
  let pc2 := snd (fst st) in
  won pc1 && won pc2 = false
  /\ (forall r, pc1 = Finished r ->
        r = inr tt \/ r = inl (AlreadyLinked (keyField k) e))
  /\ (forall r, pc2 = Finished r ->
        r = inr tt \/ r = inl (AlreadyLinked (keyField k) e))
  /\ (forall k', Model.unique (collection k' w) ->
        Model.unique (collection k' (snd st)))
  /\ (forall r1 r2, pc1 = Finished r1 -> pc2 = Finished r2 ->
        mapped e (collection k w) = false -> xorb (won pc1) (won pc2) = true).
Proof.
  intros st pc1 pc2.
  assert (Hinv : race_inv k e (mapped e (collection k w)) st).
  { apply race_inv_run. simpl. repeat split.
    destruct (mapped e (collection k w)); reflexivity. }
  assert (Hst : st = (pc1, pc2, snd st)).
  { subst pc1 pc2. destruct st as [[a b] c]. reflexivity. }
  rewrite Hst in Hinv. destruct Hinv as (H1 & H2 & Hn).
  split; [|split; [|split; [|split]]].
  - destruct (won pc1), (won pc2), (mapped e (collection k w)),
      (mapped e (collection k (snd st))); simpl in Hn; try reflexivity; lia.
  - intros r Hr. rewrite Hr in H1. destruct r as [err | []]; simpl in H1.
    + right. now f_equal.
    + now left.
  - intros r Hr. rewrite Hr in H2. destruct r as [err | []]; simpl in H2.
    + right. now f_equal.
    + now left.
  - intros k' Hu. now apply race_unique.
  - intros r1 r2 Hr1 Hr2 Hfree. rewrite Hfree in Hn.
    assert (Hm : mapped e (collection k (snd st)) = true).
    { rewrite Hr1 in H1. destruct r1 as [err | u]; simpl in H1; tauto. }
    rewrite Hm in Hn.
    destruct (won pc1), (won pc2); simpl in Hn; try reflexivity; lia.
Qed.

End Race.

(** Both calls query before either inserts: the first insert wins, the
    second is rejected by the storage boundary. *)
Lemma link_race_at_most_one_winner_witness :
  let st := race Model.save CustomerKind "alice" "bob" "cus_7"
              [true; false; true; false] (AtFind, AtFind, sample_world) in
  fst (fst st) = Finished (inr tt)
  /\ snd (fst st) = Finished (inl (AlreadyLinked "stripeCustomerId" "cus_7"))
  /\ won (fst (fst st)) && won (snd (fst st)) = false.
Proof.
  split; [reflexivity|]. split; [reflexivity|].
  exact (proj1 (link_race_at_most_one_winner CustomerKind "alice" "bob"
                  "cus_7" [true; false; true; false] sample_world)).
Defined.

(** The check made by the linking operation itself does not suffice: over a
    storage boundary that inserts unconditionally, the same schedule lets
    both calls win and leaves two mappings for one external id. *)
Lemma unchecked_storage_two_winners :
  let st := race (fun _ => Model.save_unchecked) CustomerKind "alice" "bob"
              "cus_7" [true; false; true; false]
              (AtFind, AtFind, sample_world) in
  won (fst (fst st)) && won (snd (fst st)) = true
  /\ customerMap (snd st)
     = [mkMapping "alice" "cus_1"; mkMapping "alice" "cus_7";
        mkMapping "bob" "cus_7"].
Proof. split; reflexivity. Qed.

(** ** The handlers on the sample deployment *)

Lemma handleWebhook_never_throws_witness :
  handleWebhook (mkEvent "invoice.paid" sub_1) sample_world
  = (inr tt, add_log (LogInfo "Unhandled event type invoice.paid") sample_world)
  /\ handleWebhook (mkEvent "customer.subscription.created" sub_1)
       uninitialized_world
     = (inr tt,
        add_log (LogError ("Error handling Stripe webhook: "
                           ++ "Stripe instance is not initialized."))
          uninitialized_world)
  /\ fst (handleWebhook (mkEvent "customer.subscription.created" sub_1)
            offline_world) = inr tt.
Proof.
  split; [|split].
  - apply (handleWebhook_never_throws (mkEvent "invoice.paid" sub_1)
             sample_world); [discriminate | reflexivity].
  - apply (handleWebhook_never_throws
             (mkEvent "customer.subscription.created" sub_1)
             uninitialized_world). reflexivity.
  - apply (handleWebhook_never_throws
             (mkEvent "customer.subscription.created" sub_1) offline_world).
Defined.

(** The scenario of section 8: the created event for [sub_1] reaches the
    repository as one call with the one translated record; with an
    unreachable gateway nothing reaches it. *)
Lemma registerSubscription_atomic_witness :
  calls (repo (snd (registerSubscription sub_1 sample_world)))
  = [AddSubscriptions [translated sub_1 "alice"]]
  /\ repo (snd (registerSubscription sub_1 offline_world))
     = repo offline_world.
Proof.
  destruct (registerSubscription_atomic sub_1 sample_world)
    as (_ & Hcommit & _).
  destruct (registerSubscription_atomic sub_1 offline_world)
    as (_ & _ & Habort).
  split.
  - rewrite (Hcommit (translated sub_1 "alice") eq_refl). reflexivity.
  - apply Habort. intros sub Hsub. discriminate Hsub.
Defined.

(** A deleted event without a record, one for a stored record, and one for
    the record that the created event of the same subscription has just
    stored under a generated id. *)
Lemma unregisterSubscription_guard_witness :
  repo (snd (unregisterSubscription sub_1 sample_world)) = repo sample_world
  /\ fst (unregisterSubscription_try sub_1 sample_world)
     = inl (SubscriptionRecordNotFound "sub_1")
  /\ repo (snd (unregisterSubscription sub_1 stored_world))
     = mkMemory [] [RemoveSubscription "650000000000000000000001"]
  /\ repo (snd (unregisterSubscription sub_1
                  (snd (registerSubscription sub_1 sample_world))))
     = mkMemory []
         [AddSubscriptions [translated sub_1 "alice"];
          RemoveSubscription "000000000000000000000000"].
Proof.
  destruct (unregisterSubscription_guard sub_1 sample_world)
    as (_ & Habsent & _).
  destruct (unregisterSubscription_guard sub_1 stored_world)
    as (_ & _ & Hpresent & _).
  destruct (unregisterSubscription_guard sub_1
              (snd (registerSubscription sub_1 sample_world)))
    as (_ & _ & Hcreated & _).
  destruct (Habsent eq_refl) as [Hthrown Hworld].
  split; [now rewrite Hworld|]. split; [exact Hthrown|]. split.
  - rewrite (Hpresent (mkDoc "650000000000000000000001") eq_refl);
      [reflexivity | discriminate].
  - rewrite (Hcreated (mkDoc "000000000000000000000000") eq_refl);
      [reflexivity | discriminate].
Defined.

Lemma connect_never_throws_witness :
  fst (connect "a@example.org" uninitialized_world) = inr None
  /\ fst (connect "a@example.org" uninitialized_world)
     = fst (connect "b@example.org" offline_world)
  /\ fst (connect "a@example.org" sample_world)
     = inr (Some (mkCustomer "cus_new" "a@example.org")).
Proof.
  destruct (connect_never_throws "a@example.org" uninitialized_world)
    as (_ & Hnull & _ & Hsame).
  destruct (connect_never_throws "a@example.org" sample_world)
    as (_ & _ & Hok & _).
  split; [apply (Hnull UninitializedGateway); reflexivity|].
  split.
  - apply (Hsame "b@example.org" offline_world UninitializedGateway
             (mkError "connection refused")); reflexivity.
  - now rewrite (Hok (mkCustomer "cus_new" "a@example.org") eq_refl).
Defined.

(** * Further properties of the service *)

(** ** Deleting from a collection *)

Lemma findOneAndDelete_found (e : string) (c : Collection) :
  fst (Model.findOneAndDelete e c) = Model.findOne e c.
Proof.
  unfold Model.findOne. induction c as [|m c IH]; simpl; [reflexivity|].
  destruct (externalId m =? e)%string; [reflexivity|].
  destruct (Model.findOneAndDelete e c). exact IH.
Qed.

Lemma findOneAndDelete_absent (e : string) (c : Collection) :
  Model.findOne e c = None -> Model.findOneAndDelete e c = (None, c).
Proof.
  unfold Model.findOne. induction c as [|m c IH]; simpl; [reflexivity|].
  destruct (externalId m =? e)%string; [discriminate|].
  intros Hn. now rewrite (IH Hn).
Qed.

Lemma findOneAndDelete_last (p e : string) (c : Collection) :
  Model.findOne e c = None ->
  Model.findOneAndDelete e (c ++ [mkMapping p e])%list
  = (Some (mkMapping p e), c).
Proof.
  unfold Model.findOne. induction c as [|m c IH]; simpl.
  - now rewrite String.eqb_refl.
  - destruct (externalId m =? e)%string; [discriminate|].
    intros Hn. now rewrite (IH Hn).
Qed.

Lemma findOneAndDelete_subset (e x : string) (c : Collection) :
  In x (map externalId (snd (Model.findOneAndDelete e c))) ->
  In x (map externalId c).
Proof.
  induction c as [|m c IH]; simpl; [tauto|].
  destruct (externalId m =? e)%string; simpl; [tauto|].
  destruct (Model.findOneAndDelete e c) as [r c']. simpl in *. tauto.
Qed.

Lemma findOneAndDelete_keeps_unique (e : string) (c : Collection) :
  Model.unique c -> Model.unique (snd (Model.findOneAndDelete e c)).
Proof.
  unfold Model.unique. induction c as [|m c IH]; intros Hu; simpl.
  - exact Hu.
  - inversion Hu as [|? ? Hm Hc]; subst.
    destruct (externalId m =? e)%string; simpl; [exact Hc|].
    pose proof (findOneAndDelete_subset e (externalId m) c) as Hsub.
    specialize (IH Hc).
    destruct (Model.findOneAndDelete e c) as [r c']. simpl in *.
    constructor; [tauto | exact IH].
Qed.

Section Unlinking.

Context {R : Type} `{BillingRepository R}.

Lemma unlink_cases (k : MappingKind) (e : string) (w : World R) :
  unlink k e w =
  if mapped e (collection k w)
  then (inr tt,
        add_log (unlinked_line k e)
          (set_collection k
             (snd (Model.findOneAndDelete e (collection k w))) w))
  else (inl (MappingNotFound (keyField k) e), unlink_rejected k e w).
Proof.
  unfold mapped.
  pose proof (findOneAndDelete_found e (collection k w)) as Hf.
  destruct (Model.findOne e (collection k w)) as [m|] eqn:Hfind.
  - destruct k; unfold unlink, unlinkParticipantFromCustomer,
      unlinkParticipantFromConnectedAccount, try_catch, bind,
      Model_findOneAndDelete, Logger_log; simpl in *;
      destruct (Model.findOneAndDelete e _) as [r c']; simpl in *;
      subst r; reflexivity.
  - destruct k; unfold unlink, unlinkParticipantFromCustomer,
      unlinkParticipantFromConnectedAccount, try_catch, bind,
      Model_findOneAndDelete, Logger_error, throw, unlink_rejected;
      simpl in *; rewrite (findOneAndDelete_absent _ _ Hfind); reflexivity.
Qed.

Lemma unlink_collection (k k' : MappingKind) (e : string) (w : World R) :
  collection k' (snd (unlink k e w)) =
  collection k'
    (set_collection k (snd (Model.findOneAndDelete e (collection k w))) w).
Proof.
  rewrite unlink_cases. unfold mapped.
  destruct (Model.findOne e (collection k w)) eqn:Hf; simpl.
  - destruct k'; reflexivity.
  - rewrite (findOneAndDelete_absent _ _ Hf). destruct k, k'; reflexivity.
Qed.

Lemma unlink_unique (k k' : MappingKind) (e : string) (w : World R) :
  Model.unique (collection k' w) ->
  Model.unique (collection k' (snd (unlink k e w))).
Proof.
  intros Hu. rewrite unlink_collection.
  destruct k, k'; simpl in *; try exact Hu;
    now apply findOneAndDelete_keeps_unique.
Qed.

Lemma link_keeps_found (k k' : MappingKind) (p e e' : string) (m : Mapping)
    (w : World R) :
  Model.findOne e' (collection k' w) = Some m ->
  Model.findOne e' (collection k' (snd (link k p e w))) = Some m.
Proof.
  intros Hm. rewrite link_collection.
  destruct (mapped e (collection k w)); [exact Hm|].
  destruct k, k'; simpl in *; try exact Hm;
    rewrite findOne_app, Hm; reflexivity.
Qed.

Lemma links_keep_found (ops : list (MappingKind * string * string))
    (k' : MappingKind) (e' : string) (m : Mapping) (w : World R) :
  Model.findOne e' (collection k' w) = Some m ->
  Model.findOne e' (collection k' (links ops w)) = Some m.
Proof.
  revert w. induction ops as [|[[k p] e] ops IH]; intros w Hm; simpl.
  - exact Hm.
  - apply IH. now apply link_keeps_found.
Qed.

Lemma truthy_nonempty (s : string) : s <> "" -> truthy s = true.
Proof.
  intros Hs. unfold truthy.
  destruct (String.eqb_spec s ""); [contradiction | reflexivity].
Qed.

(** X1: once [linkParticipantToCustomer(p, e)] has succeeded, resolving
    [e] returns [p], also after any number of further linking calls of
    either kind; for a non-empty [e] so does participant resolution from
    the raw customer reference [e]. *)
Theorem link_resolve_roundtrip
    (p e : string) (between : list (MappingKind * string * string))
    (w : World R) :
  fst (linkParticipantToCustomer p e w) = inr tt ->
  let w1 := links between (snd (linkParticipantToCustomer p e w)) in
  getRelatedParticipant e w1 = (inr p, w1)
  /\ (e <> "" -> getParticipant (CustomerId e) w1 = (inr p, w1)).
Proof.
  intros Hok w1.
  assert (Hf : Model.findOne e (customerMap w1) = Some (mkMapping p e)).
  { subst w1. apply (links_keep_found between CustomerKind).
    change (linkParticipantToCustomer p e w) with (link CustomerKind p e w)
      in Hok |- *.
    rewrite link_cases in Hok |- *. unfold mapped in *.
    destruct (Model.findOne e (collection CustomerKind w)) eqn:Hw;
      simpl in *; [discriminate|].
    rewrite findOne_app, Hw. simpl. now rewrite String.eqb_refl. }
  assert (Hr : getRelatedParticipant e w1 = (inr p, w1)).
  { unfold getRelatedParticipant, try_catch, bind, Model_findOne. simpl.
    rewrite Hf. reflexivity. }
  split; [exact Hr|].
  intros Hne. unfold getParticipant, bind, call. simpl.
  now rewrite (truthy_nonempty e Hne).
Qed.

(** X2: unlinking an external id that has no mapping, for either kind,
    throws the "No mapping found" error, logs it, and changes neither
    collection. *)
Theorem unlink_missing (k : MappingKind) (e : string) (w : World R) :
  Model.findOne e (collection k w) = None ->
  unlink k e w
  = (inl (MappingNotFound (keyField k) e), unlink_rejected k e w)
  /\ (forall k', collection k' (snd (unlink k e w)) = collection k' w).
Proof.
  intros Hn. rewrite unlink_cases. unfold mapped. rewrite Hn.
  split; [reflexivity|]. intros k'. destruct k'; reflexivity.
Qed.

(** X3: a successful [link(p, e)] followed by [unlink(e)] of the same kind
    succeeds and restores both collections exactly. *)
Theorem link_unlink_roundtrip (k : MappingKind) (p e : string) (w : World R) :
  fst (link k p e w) = inr tt ->
  let w1 := snd (link k p e w) in
  fst (unlink k e w1) = inr tt
  /\ (forall k', collection k' (snd (unlink k e w1)) = collection k' w).
Proof.
  intros Hok w1. subst w1. rewrite link_cases in Hok |- *.
  unfold mapped in *.
  destruct (Model.findOne e (collection k w)) eqn:Hw; simpl in *;
    [discriminate|].
  split.
  - rewrite unlink_cases, collection_set_same, mapped_app. simpl.
    now rewrite String.eqb_refl, orb_true_r.
  - intros k'. rewrite unlink_collection, collection_set_same.
    rewrite (findOneAndDelete_last p e _ Hw). simpl.
    destruct k, k'; reflexivity.
Qed.

(** X4: in a collection without duplicate external ids, after [unlink(e)]
    (whether it found a mapping or not) the id [e] is unmapped: resolving
    it fails with [NotFound], a new [link(p, e)] succeeds, and the
    collections are still without duplicates. *)
Theorem unlink_frees_id (k : MappingKind) (p e : string) (w : World R) :
  Model.unique (collection k w) ->
  let w1 := snd (unlink k e w) in
  Model.findOne e (collection k w1) = None
  /\ fst (link k p e w1) = inr tt
  /\ (k = CustomerKind -> fst (getRelatedParticipant e w1) = inl (NotFound e))
  /\ Model.unique (collection k w1).
Proof.
  intros Hu w1.
  assert (Hn : Model.findOne e (collection k w1) = None).
  { subst w1. rewrite unlink_collection, collection_set_same.
    now apply findOneAndDelete_unique. }
  split; [exact Hn|]. split; [|split].
  - rewrite link_cases. unfold mapped. now rewrite Hn.
  - intros ->. unfold getRelatedParticipant, try_catch, bind, Model_findOne.
    simpl in *. now rewrite Hn.
  - subst w1. now apply unlink_unique.
Qed.

(** X5: linking checks the external id only, never the participant: one
    participant can be linked to two different external ids of the same
    kind, and both mappings are stored. *)
Theorem link_participant_not_unique
    (k : MappingKind) (p e e' : string) (w : World R) :
  e <> e' ->
  Model.findOne e (collection k w) = None ->
  Model.findOne e' (collection k w) = None ->
  fst (link k p e w) = inr tt
  /\ fst (link k p e' (snd (link k p e w))) = inr tt
  /\ collection k (snd (link k p e' (snd (link k p e w))))
     = (collection k w ++ [mkMapping p e; mkMapping p e'])%list.
Proof.
  intros Hne He He'.
  assert (H1 : link k p e w
               = (inr tt,
                  set_collection k (collection k w ++ [mkMapping p e])%list w)).
  { rewrite link_cases. unfold mapped. now rewrite He. }
  rewrite H1. simpl.
  assert (H2 : mapped e'
                 (collection k
                    (set_collection k
                       (collection k w ++ [mkMapping p e])%list w)) = false).
  { rewrite collection_set_same, mapped_app. unfold mapped. rewrite He'.
    simpl. now apply String.eqb_neq. }
  rewrite link_cases, H2. simpl.
  repeat split. rewrite !collection_set_same, <- app_assoc. reflexivity.
Qed.

(** X6: the two mapping kinds are independent: linking or unlinking in one
    kind leaves the other kind's collection unchanged, so an external id
    linked as a customer can still be linked as a connected account, and
    the other way round. *)
Theorem kinds_independent
    (k k' : MappingKind) (p p' e e' : string) (w : World R) :
  k <> k' ->
  collection k' (snd (link k p e w)) = collection k' w
  /\ collection k' (snd (unlink k e w)) = collection k' w
  /\ fst (link k' p' e' (snd (link k p e w))) = fst (link k' p' e' w)
  /\ fst (unlink k' e' (snd (link k p e w))) = fst (unlink k' e' w).
Proof.
  intros Hk.
  assert (Hl : collection k' (snd (link k p e w)) = collection k' w).
  { rewrite link_collection. destruct (mapped e (collection k w));
      [reflexivity | now apply collection_set_other]. }
  assert (Hu : collection k' (snd (unlink k e w)) = collection k' w).
  { rewrite unlink_collection. now apply collection_set_other. }
  split; [exact Hl|]. split; [exact Hu|]. split.
  - rewrite !(link_cases k'), Hl.
    destruct (mapped e' (collection k' w)); reflexivity.
  - rewrite !(unlink_cases k'), Hl.
    destruct (mapped e' (collection k' w)); reflexivity.
Qed.

End Unlinking.

(** ** What the operations leave untouched *)

Section Frames.

Context {R : Type} `{BillingRepository R}.

Lemma logs_only_refl (w : World R) : logs_only w w.
Proof. exists []. rewrite app_nil_r. now destruct w. Qed.

Lemma logs_only_add_log (entry : LogEntry) (w w' : World R) :
  logs_only w w' -> logs_only w (add_log entry w').
Proof.
  intros [entries ->]. exists (entries ++ [entry])%list.
  unfold add_log. simpl. now rewrite app_assoc.
Qed.

Lemma logs_only_trans (w w' w'' : World R) :
  logs_only w w' -> logs_only w' w'' -> logs_only w w''.
Proof.
  intros [l1 ->] [l2 ->]. exists (l1 ++ l2)%list. simpl.
  now rewrite app_assoc.
Qed.

Lemma logs_only_frames (w w' : World R) : logs_only w w' -> frames w w'.
Proof. intros [entries ->]. repeat split. now exists entries. Qed.

Lemma frames_refl (w : World R) : frames w w.
Proof. apply logs_only_frames, logs_only_refl. Qed.

Lemma frames_trans (w w' w'' : World R) :
  frames w w' -> frames w' w'' -> frames w w''.
Proof.
  intros (Hs & Hc & Ha & l1 & Hl1) (Hs' & Hc' & Ha' & l2 & Hl2).
  repeat split; try congruence.
  exists (l1 ++ l2)%list. now rewrite Hl2, Hl1, app_assoc.
Qed.

Lemma frames_set_repo (r : R) (w : World R) : frames w (set_repo r w).
Proof. repeat split. exists []. simpl. now rewrite app_nil_r. Qed.

Lemma frames_add_log (entry : LogEntry) (w w' : World R) :
  frames w w' -> frames w (add_log entry w').
Proof.
  intros (Hs & Hc & Ha & l & Hl). repeat split; try assumption.
  exists (l ++ [entry])%list. simpl. now rewrite Hl, app_assoc.
Qed.

Lemma getParticipant_logs_only (c : CustomerRef) (w : World R) :
  logs_only w (snd (getParticipant c w)).
Proof.
  unfold getParticipant, bind, call.
  destruct (customerId_of c) as [err | [i |]]; simpl;
    try apply logs_only_refl.
  destruct (truthy i); simpl; [|apply logs_only_refl].
  rewrite getRelatedParticipant_cases.
  destruct (Model.findOne i (customerMap w)); simpl.
  - apply logs_only_refl.
  - apply logs_only_add_log, logs_only_refl.
Qed.

Lemma formatStripeSubscription_logs_only (i : string) (w : World R) :
  logs_only w (snd (formatStripeSubscription i w)).
Proof.
  destruct (retrieval i w) as [err | raw] eqn:Hr.
  - rewrite (formatStripeSubscription_unretrieved _ _ _ Hr).
    apply logs_only_add_log, logs_only_refl.
  - destruct (fst (getParticipant (customer raw) w)) as [err | p] eqn:Hp.
    + rewrite (formatStripeSubscription_unresolved _ _ _ _ Hr Hp).
      apply getParticipant_logs_only.
    + rewrite (formatStripeSubscription_ok _ _ _ _ Hr Hp).
      apply logs_only_refl.
Qed.

Lemma connect_logs_only (email : string) (w : World R) :
  logs_only w (snd (connect email w)).
Proof.
  unfold connect, try_catch, bind, getStripe, call, Logger_error, ret.
  destruct (stripe w) as [s|]; simpl.
  - destruct (customers_create s email); simpl.
    + apply logs_only_add_log, logs_only_refl.
    + apply logs_only_refl.
  - apply logs_only_add_log, logs_only_refl.
Qed.

Lemma registerSubscription_frames (raw : RawSubscription) (w : World R) :
  frames w (snd (registerSubscription raw w)).
Proof.
  pose proof (formatStripeSubscription_logs_only (sub_id raw) w) as Hf.
  apply logs_only_frames in Hf.
  unfold registerSubscription, registerSubscription_try, try_catch, bind,
    sync_addSubscriptions, throw, Logger_error.
  destruct (formatStripeSubscription (sub_id raw) w) as [[err | [s |]] w'];
    simpl in *.
  - now apply frames_add_log.
  - destruct (addSubscriptions _ (repo w')) as [[e | []] r']; simpl.
    + apply frames_add_log. eapply frames_trans; [exact Hf|].
      apply frames_set_repo.
    + eapply frames_trans; [exact Hf | apply frames_set_repo].
  - now apply frames_add_log.
Qed.

Lemma unregisterSubscription_frames (raw : RawSubscription) (w : World R) :
  frames w (snd (unregisterSubscription raw w)).
Proof.
  unfold unregisterSubscription, unregisterSubscription_try, try_catch, bind,
    SubscriptionModel_findOne, sync_removeSubscription, throw, Logger_error.
  destruct (findOneByStripeId (sub_id raw) (repo w)) as [err | [doc |]];
    simpl; try (apply frames_add_log, frames_refl).
  destruct (truthy (doc_id doc)); simpl;
    [|apply frames_add_log, frames_refl].
  destruct (removeSubscription (doc_id doc) (repo w)) as [[e | []] r']; simpl.
  - apply frames_add_log, frames_set_repo.
  - apply frames_set_repo.
Qed.

Lemma handleWebhook_cases (event : Event) (w : World R) :
  handleWebhook event w =
  match stripe w with
  | None =>
      (inr tt,
       add_log (LogError ("Error handling Stripe webhook: "
                          ++ message UninitializedGateway)) w)
  | Some _ =>
      if (event_type event =? "customer.subscription.updated")%string
      then (inr tt, w)
      else if (event_type event =? "customer.subscription.deleted")%string
      then unregisterSubscription (data_object event) w
      else if (event_type event =? "customer.subscription.created")%string
      then registerSubscription (data_object event) w
      else (inr tt,
            add_log (LogInfo ("Unhandled event type " ++ event_type event)) w)
  end.
Proof.
  destruct (stripe w) as [s|] eqn:Hs.
  - rewrite handleWebhook_dispatch; [reflexivity | congruence].
  - unfold handleWebhook, handleWebhook_try, try_catch, bind, getStripe.
    now rewrite Hs.
Qed.

(** X7: whatever the event, [handleWebhook] never changes the client or
    either mapping collection, and it only appends to the log. *)
Theorem handleWebhook_frames (event : Event) (w : World R) :
  let w' := snd (handleWebhook event w) in
  stripe w' = stripe w
  /\ customerMap w' = customerMap w
  /\ accountMap w' = accountMap w
  /\ exists entries, log w' = (log w ++ entries)%list.
Proof.
  change (frames w (snd (handleWebhook event w))).
  rewrite handleWebhook_cases.
  destruct (stripe w); [|apply frames_add_log, frames_refl].
  destruct (event_type event =? "customer.subscription.updated")%string;
    [apply frames_refl|].
  destruct (event_type event =? "customer.subscription.deleted")%string;
    [apply unregisterSubscription_frames|].
  destruct (event_type event =? "customer.subscription.created")%string;
    [apply registerSubscription_frames|].
  apply frames_add_log, frames_refl.
Qed.

(** X8: the repository is reached only by created and deleted events of a
    service that has its client: without a client, or for any other event
    kind, [handleWebhook] leaves the repository untouched, and an updated
    event with a client changes nothing at all, not even the log. *)
Theorem handleWebhook_repo_untouched (event : Event) (w : World R) :
  stripe w = None
  \/ (event_type event <> "customer.subscription.deleted"
      /\ event_type event <> "customer.subscription.created") ->
  repo (snd (handleWebhook event w)) = repo w
  /\ (stripe w <> None ->
      event_type event = "customer.subscription.updated" ->
      handleWebhook event w = (inr tt, w)).
Proof.
  intros Hcase. rewrite handleWebhook_cases. split.
  - destruct (stripe w) as [s|]; [|reflexivity].
    destruct Hcase as [Hs | [Hd Hc]]; [discriminate|].
    apply String.eqb_neq in Hd, Hc. rewrite Hd, Hc.
    destruct (event_type event =? "customer.subscription.updated")%string;
      reflexivity.
  - intros Hs Hu. destruct (stripe w); [|congruence].
    now rewrite Hu.
Qed.

End Frames.

(** ** Translation and registration, further *)

Section Registration.

Context {R : Type} `{BillingRepository R}.

Lemma getParticipant_mapping (c : CustomerRef) (w : World R) (p : string) :
  fst (getParticipant c w) = inr p ->
  exists m, In m (customerMap w) /\ m_participant m = p
            /\ externalId m <> "".
Proof.
  unfold getParticipant, bind, call.
  destruct (customerId_of c) as [err | [i |]]; simpl; try discriminate.
  unfold truthy. destruct (String.eqb_spec i ""); simpl; [discriminate|].
  rewrite getRelatedParticipant_cases.
  destruct (Model.findOne i (customerMap w)) as [m|] eqn:Hf; simpl;
    [|discriminate].
  intros Hp. injection Hp as <-. exists m.
  pose proof (findOne_key _ _ _ Hf) as Hk.
  apply find_some in Hf. destruct Hf as [Hin _].
  repeat split; [exact Hin | congruence].
Qed.



Lemma formatStripeSubscription_Some (i : string) (w : World R)
    (sub : Subscription) :
  fst (formatStripeSubscription i w) = inr (Some sub) ->
  exists raw p,
    retrieval i w = inr raw
    /\ fst (getParticipant (customer raw) w) = inr p
    /\ sub = translated raw p
    /\ formatStripeSubscription i w = (inr (Some sub), w).
Proof.
  destruct (retrieval i w) as [err | raw] eqn:Hr.
  - rewrite (formatStripeSubscription_unretrieved _ _ _ Hr). discriminate.
  - destruct (fst (getParticipant (customer raw) w)) as [err | p] eqn:Hp.
    + rewrite (formatStripeSubscription_unresolved _ _ _ _ Hr Hp).
      discriminate.
    + rewrite (formatStripeSubscription_ok _ _ _ _ Hr Hp). simpl.
      intros Hs. injection Hs as <-. now exists raw, p.
Qed.

(** The world a created event leaves when translation has produced
    [sub]: the repository after the one call, and the error line if that
    call threw. *)
Lemma registerSubscription_commit (raw : RawSubscription) (w : World R)
    (sub : Subscription) :
  fst (formatStripeSubscription (sub_id raw) w) = inr (Some sub) ->
  registerSubscription raw w =
  (inr tt,
   match addSubscriptions [sub] (repo w) with
   | (inr _, r) => set_repo r w
   | (inl err, r) =>
       add_log (LogError ("Error registering subscription " ++ sub_id raw
                          ++ ": " ++ message err)) (set_repo r w)
   end).
Proof.
  intros Hs. destruct (formatStripeSubscription_Some _ _ _ Hs)
    as (raw' & p & _ & _ & _ & Hf).
  unfold registerSubscription, registerSubscription_try, try_catch, bind,
    sync_addSubscriptions, Logger_error.
  rewrite Hf. simpl.
  destruct (addSubscriptions [sub] (repo w)) as [[e | []] r']; reflexivity.
Qed.


(** X10: the outcomes of [formatStripeSubscription]: it returns [null]
    exactly when the gateway cannot retrieve the subscription; it throws
    exactly when the subscription is retrieved and participant resolution
    of its customer throws, and then that same error; and a record it
    returns carries the raw subscription's id, the type [payAmount], no
    internal id, empty [resource] and [resources], and the participant of
    a stored customer mapping, the world being left exactly as it was. *)
Theorem formatStripeSubscription_outcomes (i : string) (w : World R) :
  (fst (formatStripeSubscription i w) = inr None
   <-> exists err, retrieval i w = inl err)
  /\ (forall err,
        fst (formatStripeSubscription i w) = inl err
        <-> exists raw, retrieval i w = inr raw
                        /\ fst (getParticipant (customer raw) w) = inl err)
  /\ (forall sub, fst (formatStripeSubscription i w) = inr (Some sub) ->
        snd (formatStripeSubscription i w) = w
        /\ (exists raw, retrieval i w = inr raw
                        /\ stripeId sub = Some (sub_id raw))
        /\ _id sub = None
        /\ subscriptionType sub = payAmount
        /\ resource sub = Some "" /\ resources sub = Some []
        /\ exists m, In m (customerMap w)
                     /\ m_participant m = participant sub).
Proof.
  split; [|split].
  - destruct (retrieval i w) as [err | raw] eqn:Hr.
    + rewrite (formatStripeSubscription_unretrieved _ _ _ Hr).
      split; [now exists err | reflexivity].
    + split; [|intros [err Herr]; discriminate].
      destruct (fst (getParticipant (customer raw) w)) as [err | p] eqn:Hp.
      * rewrite (formatStripeSubscription_unresolved _ _ _ _ Hr Hp).
        discriminate.
      * rewrite (formatStripeSubscription_ok _ _ _ _ Hr Hp). discriminate.
  - intros err. destruct (retrieval i w) as [e | raw] eqn:Hr.
    + rewrite (formatStripeSubscription_unretrieved _ _ _ Hr).
      split; [discriminate | intros (raw & Hraw & _); discriminate].
    + destruct (fst (getParticipant (customer raw) w)) as [e | p] eqn:Hp.
      * rewrite (formatStripeSubscription_unresolved _ _ _ _ Hr Hp). simpl.
        split.
        -- intros He. injection He as <-. now exists raw.
        -- intros (raw' & Hraw & He). injection Hraw as <-. congruence.
      * rewrite (formatStripeSubscription_ok _ _ _ _ Hr Hp). simpl.
        split; [discriminate|].
        intros (raw' & Hraw & He). injection Hraw as <-. congruence.
  - intros sub Hs.
    destruct (formatStripeSubscription_Some _ _ _ Hs)
      as (raw & p & Hr & Hp & -> & Hf).
    rewrite Hf. simpl. split; [reflexivity|].
    split; [now exists raw|]. repeat split.
    destruct (getParticipant_mapping _ _ _ Hp) as (m & Hin & Hm & _).
    now exists m.
Qed.

(** X11: a created event whose subscription belongs to an expanded
    customer marked deleted is dropped: [handleWebhook] returns normally,
    logs "Customer has been deleted" with the subscription id, and leaves
    everything else, the repository included, as it was. *)
Theorem created_for_deleted_customer
    (event : Event) (w : World R) (raw : RawSubscription)
    (o : CustomerObject) :
  event_type event = "customer.subscription.created" ->
  stripe w <> None ->
  retrieval (sub_id (data_object event)) w = inr raw ->
  customer raw = CustomerExpanded o ->
  deleted o = Some true ->
  handleWebhook event w
  = (inr tt,
     add_log (LogError ("Error registering subscription "
                        ++ sub_id (data_object event)
                        ++ ": Customer has been deleted")) w).
Proof.
  intros Ht Hs Hr Hc Hd.
  rewrite handleWebhook_cases. destruct (stripe w); [|congruence].
  rewrite Ht. simpl.
  assert (Hp : getParticipant (customer raw) w = (inl CustomerDeleted, w)).
  { rewrite Hc. unfold getParticipant, bind, call, customerId_of.
    now rewrite Hd. }
  unfold registerSubscription, registerSubscription_try, try_catch, bind.
  rewrite (formatStripeSubscription_unresolved _ _ _ CustomerDeleted Hr);
    [|now rewrite Hp].
  rewrite Hp. reflexivity.
Qed.

(** X12: linking then syncing: after [linkParticipantToCustomer(p, e)] has
    succeeded for a non-empty [e], a created event for a retrievable
    subscription of customer [e] commits exactly the record translated for
    participant [p], in one [addSubscriptions] call. *)
Theorem link_then_created
    (p e : string) (event : Event) (w : World R) (raw : RawSubscription) :
  fst (linkParticipantToCustomer p e w) = inr tt ->
  e <> "" ->
  event_type event = "customer.subscription.created" ->
  retrieval (sub_id (data_object event)) w = inr raw ->
  customer raw = CustomerId e ->
  repo (snd (handleWebhook event (snd (linkParticipantToCustomer p e w))))
  = snd (addSubscriptions [translated raw p] (repo w)).
Proof.
  intros Hok Hne Ht Hr Hc.
  set (w1 := snd (linkParticipantToCustomer p e w)).
  assert (Hw1 : w1 = set_collection CustomerKind
                       (customerMap w ++ [mkMapping p e])%list w).
  { subst w1.
    change (linkParticipantToCustomer p e w) with (link CustomerKind p e w)
      in Hok |- *.
    rewrite link_cases in Hok |- *.
    destruct (mapped e (collection CustomerKind w)); simpl in *;
      [discriminate | reflexivity]. }
  assert (Hs : stripe w1 = stripe w) by now rewrite Hw1.
  assert (Hrepo : repo w1 = repo w) by now rewrite Hw1.
  assert (Hr1 : retrieval (sub_id (data_object event)) w1 = inr raw).
  { unfold retrieval in *. now rewrite Hs. }
  assert (Hp : fst (getParticipant (customer raw) w1) = inr p).
  { rewrite Hc. unfold getParticipant, bind, call. simpl.
    rewrite (truthy_nonempty e Hne), getRelatedParticipant_cases.
    assert (Hf : Model.findOne e (customerMap w1) = Some (mkMapping p e)).
    { change (linkParticipantToCustomer p e w)
        with (link CustomerKind p e w) in Hok.
      rewrite link_cases in Hok. unfold mapped in Hok.
      destruct (Model.findOne e (collection CustomerKind w)) eqn:Hw;
        simpl in *; [discriminate|].
      rewrite Hw1. simpl. rewrite findOne_app, Hw. simpl.
      now rewrite String.eqb_refl. }
    now rewrite Hf. }
  rewrite handleWebhook_cases.
  destruct (stripe w1) as [s|] eqn:Hs1.
  - rewrite Ht. simpl.
    rewrite (registerSubscription_commit _ _ (translated raw p)).
    + simpl. rewrite Hrepo.
      destruct (addSubscriptions _ (repo w)) as [[err | []] r']; reflexivity.
    + now rewrite (formatStripeSubscription_ok _ _ _ _ Hr1 Hp).
  - unfold retrieval in Hr1. rewrite Hs1 in Hr1. discriminate.
Qed.

(** X13: translation does not validate the period bounds: for a
    retrievable subscription with a resolvable customer it always returns
    a record; a bound is stored as an invalid date exactly when seconds
    times 1000 exceeds the range of a [Date]; and two valid bounds keep the
    order of the raw fields. *)
Theorem formatStripeSubscription_bounds
    (i : string) (w : World R) (raw : RawSubscription) (p : string) :
  retrieval i w = inr raw ->
  fst (getParticipant (customer raw) w) = inr p ->
  exists sub d,
    fst (formatStripeSubscription i w) = inr (Some sub)
    /\ endDate (details sub) = Some d
    /\ (timeValue (startDate (details sub)) = None
        <-> maxTimeValue < Z.abs (current_period_start raw * 1000))
    /\ (timeValue d = None
        <-> maxTimeValue < Z.abs (current_period_end raw * 1000))
    /\ (forall a b,
          timeValue (startDate (details sub)) = Some a ->
          timeValue d = Some b ->
          current_period_start raw <= current_period_end raw -> a <= b).
Proof.
  intros Hr Hp.
  exists (translated raw p), (new_Date (current_period_end raw * 1000)).
  rewrite (formatStripeSubscription_ok _ _ _ _ Hr Hp).
  cbn [fst translated details startDate endDate].
  split; [reflexivity|]. split; [reflexivity|].
  unfold new_Date. cbn [timeValue].
  destruct (Z.leb_spec (Z.abs (current_period_start raw * 1000)) maxTimeValue);
    destruct (Z.leb_spec (Z.abs (current_period_end raw * 1000)) maxTimeValue);
    (split; [split; [try discriminate; lia | try reflexivity; lia]|]);
    (split; [split; [try discriminate; lia | try reflexivity; lia]|]);
    intros a b Ha Hb Hle; try discriminate.
  injection Ha as <-. injection Hb as <-. lia.
Qed.

(** X14: [connect] creates a customer at the provider and nothing else: it
    never changes the client, the collections or the repository (so the new
    customer is not linked to any participant); a success logs nothing and
    a failure logs exactly one "Error creating Stripe customer" line. *)
Theorem connect_changes_nothing (email : string) (w : World R) :
  (forall c, fst (connect email w) = inr (Some c) ->
     snd (connect email w) = w /\ creation email w = inr c)
  /\ (fst (connect email w) = inr None ->
      exists err, creation email w = inl err
        /\ snd (connect email w)
           = add_log (LogError ("Error creating Stripe customer: "
                                ++ message err)) w)
  /\ (forall e, Model.findOne e (customerMap (snd (connect email w)))
                = Model.findOne e (customerMap w))
  /\ accountMap (snd (connect email w)) = accountMap w
  /\ repo (snd (connect email w)) = repo w
  /\ stripe (snd (connect email w)) = stripe w.
Proof.
  unfold connect, creation, try_catch, bind, getStripe, call, Logger_error,
    ret.
  destruct (stripe w) as [s|] eqn:Hs; simpl.
  - destruct (customers_create s email) as [err | c]; simpl.
    + split; [intros c Hc; discriminate|].
      split; [intros _; now exists err|]. now repeat split.
    + split; [intros c' Hc; now injection Hc as <-|].
      split; [discriminate|]. now repeat split.
  - split; [intros c Hc; discriminate|].
    split; [intros _; now exists UninitializedGateway|]. now repeat split.
Qed.

End Registration.

(** ** Construction and runs of operations *)

Section Runs.

Context {R : Type} `{BillingRepository R}.

Lemma connect_uninitialized (email : string) (w : World R) :
  stripe w = None -> fst (connect email w) = inr None.
Proof.
  intros Hs. unfold connect, try_catch, bind, getStripe. now rewrite Hs.
Qed.

Lemma formatStripeSubscription_uninitialized (i : string) (w : World R) :
  stripe w = None -> fst (formatStripeSubscription i w) = inr None.
Proof.
  intros Hs.
  rewrite (formatStripeSubscription_unretrieved i w UninitializedGateway);
    [reflexivity|]. unfold retrieval. now rewrite Hs.
Qed.

(** X15: the constructor of the service never throws.  With a non-empty
    secret key and a client factory that returns, the client is set and
    nothing is logged.  With a missing or empty key, or a factory that
    throws, the error is only logged and the service is left without a
    client: from then on [connect] returns [null], translation returns
    [null], and no webhook event reaches the repository. *)
Theorem StripeService_constructor_outcomes
    (stripeSecretKey : option string) (getNewStripe : string -> Exc Stripe)
    (w : World R) :
  fst (StripeService_constructor stripeSecretKey getNewStripe w) = inr tt
  /\ (forall key s,
        stripeSecretKey = Some key -> key <> "" ->
        getNewStripe key = inr s ->
        StripeService_constructor stripeSecretKey getNewStripe w
        = (inr tt, set_stripe (Some s) w))
  /\ (stripeSecretKey = None \/ stripeSecretKey = Some ""
      \/ (exists key err, stripeSecretKey = Some key
                          /\ getNewStripe key = inl err) ->
      let w' := snd (StripeService_constructor stripeSecretKey getNewStripe w)
      in
      StripeService_getStripe w' = None
      /\ (exists msg,
            w' = add_log (LogError
                            ("Error during Stripe service initialization: "
                             ++ msg)) (set_stripe None w))
      /\ (forall email, fst (connect email w') = inr None)
      /\ (forall i, fst (formatStripeSubscription i w') = inr None)
      /\ (forall event, repo (snd (handleWebhook event w')) = repo w)).
Proof.
  assert (Hinert : forall msg,
            let w' := add_log (LogError
                                 ("Error during Stripe service initialization: "
                                  ++ msg)) (set_stripe None w) in
            StripeService_getStripe w' = None
            /\ (exists msg0,
                  w' = add_log (LogError
                                  ("Error during Stripe service initialization: "
                                   ++ msg0)) (set_stripe None w))
            /\ (forall email, fst (connect email w') = inr None)
            /\ (forall i, fst (formatStripeSubscription i w') = inr None)
            /\ (forall event, repo (snd (handleWebhook event w')) = repo w)).
  { intros msg w'. split; [reflexivity|]. split; [now exists msg|].
    split; [intros email; now apply connect_uninitialized|].
    split; [intros i; now apply formatStripeSubscription_uninitialized|].
    intros event. rewrite handleWebhook_cases. reflexivity. }
  unfold StripeService_constructor, try_catch, bind, call, throw,
    Logger_error.
  destruct stripeSecretKey as [key|]; simpl.
  - unfold truthy. destruct (String.eqb_spec key "") as [Heq | Hne]; simpl.
    + split; [reflexivity|]. split.
      * intros k s Hk Hn. injection Hk as <-. contradiction.
      * intros _. apply Hinert.
    + destruct (getNewStripe key) as [err | s] eqn:Hf; simpl.
      * split; [reflexivity|]. split.
        -- intros k s Hk _ Hs. injection Hk as <-. congruence.
        -- intros _. apply Hinert.
      * split; [reflexivity|]. split.
        -- intros k s' Hk _ Hs. injection Hk as <-.
           rewrite Hf in Hs. now injection Hs as <-.
        -- intros [Hk | [Hk | (k & err & Hk & Herr)]]; [discriminate| |].
           ++ injection Hk as Hk. contradiction.
           ++ injection Hk as <-. congruence.
  - split; [reflexivity|]. split; [discriminate|]. intros _. apply Hinert.
Qed.

Lemma link_frames (k : MappingKind) (p e : string) (w : World R) :
  stripe (snd (link k p e w)) = stripe w
  /\ exists entries, log (snd (link k p e w)) = (log w ++ entries)%list.
Proof.
  rewrite link_cases. destruct (mapped e (collection k w)); simpl.
  - split; [reflexivity | now eexists].
  - destruct k; simpl; (split; [reflexivity|]); exists [];
      now rewrite app_nil_r.
Qed.

Lemma unlink_frames (k : MappingKind) (e : string) (w : World R) :
  stripe (snd (unlink k e w)) = stripe w
  /\ exists entries, log (snd (unlink k e w)) = (log w ++ entries)%list.
Proof.
  rewrite unlink_cases. destruct (mapped e (collection k w)); simpl.
  - destruct k; simpl; (split; [reflexivity | now eexists]).
  - split; [reflexivity | now eexists].
Qed.

Lemma run_operation_keeps (op : Operation) (w : World R) :
  stripe (run_operation op w) = stripe w
  /\ (exists entries, log (run_operation op w) = (log w ++ entries)%list)
  /\ (forall k, Model.unique (collection k w) ->
                Model.unique (collection k (run_operation op w))).
Proof.
  assert (Hframes : forall w', frames w w' ->
            stripe w' = stripe w
            /\ (exists entries, log w' = (log w ++ entries)%list)
            /\ (forall k, Model.unique (collection k w) ->
                          Model.unique (collection k w'))).
  { intros w' (Hs & Hc & Ha & Hl). split; [exact Hs|]. split; [exact Hl|].
    intros k. destruct k; simpl; congruence. }
  destruct op as [k p e | k e | event | email | i]; simpl.
  - destruct (link_frames k p e w) as [Hs Hl].
    split; [exact Hs|]. split; [exact Hl|].
    intros k'. apply link_unique.
  - destruct (unlink_frames k e w) as [Hs Hl].
    split; [exact Hs|]. split; [exact Hl|].
    intros k'. apply unlink_unique.
  - apply Hframes. change (frames w (snd (handleWebhook event w))).
    rewrite handleWebhook_cases.
    destruct (stripe w); [|apply frames_add_log, frames_refl].
    destruct (event_type event =? "customer.subscription.updated")%string;
      [apply frames_refl|].
    destruct (event_type event =? "customer.subscription.deleted")%string;
      [apply unregisterSubscription_frames|].
    destruct (event_type event =? "customer.subscription.created")%string;
      [apply registerSubscription_frames|].
    apply frames_add_log, frames_refl.
  - apply Hframes, logs_only_frames, connect_logs_only.
  - apply Hframes, logs_only_frames, formatStripeSubscription_logs_only.
Qed.

(** X16: over any run of the public operations (linking, unlinking,
    webhook events, customer creation, translation), in any order and
    whatever each returns: the client is never replaced, the log is only
    appended to, and a mapping collection without duplicate external ids
    stays without duplicates. *)
Theorem run_operations_invariants (ops : list Operation) (w : World R) :
  stripe (run_operations ops w) = stripe w
  /\ (exists entries, log (run_operations ops w) = (log w ++ entries)%list)
  /\ (forall k, Model.unique (collection k w) ->
                Model.unique (collection k (run_operations ops w))).
Proof.
  revert w. induction ops as [|op ops IH]; intros w; simpl.
  - split; [reflexivity|]. split; [exists []; now rewrite app_nil_r|].
    intros k Hu. exact Hu.
  - destruct (run_operation_keeps op w) as (Hs & [l1 Hl1] & Hu).
    destruct (IH (run_operation op w)) as (Hs' & [l2 Hl2] & Hu').
    split; [congruence|]. split.
    + exists (l1 ++ l2)%list. now rewrite Hl2, Hl1, app_assoc.
    + intros k Hk. apply Hu', Hu, Hk.
Qed.

End Runs.

(** ** The product service *)

Section ProductFacts.

Context {R : Type} `{BillingRepository R}.
Context {Product ProductCreateParams ProductUpdateParams RequestOptions : Type}.

Abbreviation Client :=
  (ProductsClient Product ProductCreateParams ProductUpdateParams
     RequestOptions).
Abbreviation Service :=
  (StripeProductCrudService Product ProductCreateParams ProductUpdateParams
     RequestOptions).

(** Every operation of the service has one shape. *)
Lemma guarded_passes_through {A B : Type} (this : Service)
    (request : Client -> Exc A) (answer : A -> B) (fallback : B)
    (prefix : string) (w : World R) :
  passes_through this request answer fallback prefix
    (try_catch
       (s <- getStripeService this ;;
        x <- call (request s) ;;
        ret (answer x))
       (fun err => Logger_error (prefix ++ message err) ;; ret fallback))
    w.
Proof.
  unfold passes_through, try_catch, bind, getStripeService, call, ret,
    Logger_error.
  destruct (stripeService this) as [s|]; simpl.
  - destruct (request s) as [err | x] eqn:Hr; simpl.
    + split; [discriminate|]. split.
      * intros s' x Hs Hx. injection Hs as <-. congruence.
      * split; [|discriminate].
        intros s' e Hs He. injection Hs as <-. rewrite Hr in He.
        now injection He as <-.
    + split; [discriminate|]. split.
      * intros s' x' Hs Hx. injection Hs as <-. rewrite Hr in Hx.
        now injection Hx as <-.
      * split; [|discriminate].
        intros s' e Hs He. injection Hs as <-. congruence.
  - split; [discriminate|]. split; [discriminate|].
    split; [discriminate | reflexivity].
Qed.

(** X17: the five operations of the product service never throw: each
    returns the provider's answer ([data] of the list, the [deleted] flag
    of a deletion) and leaves the world untouched, and on a provider error
    or a missing client returns [null] (respectively [false]) after
    logging one line with its own prefix. *)
Theorem product_operations_pass_through
    (this : Service) (productData : ProductCreateParams)
    (updates : ProductUpdateParams) (productId : string)
    (options : option RequestOptions) (w : World R) :
  passes_through this (fun s => products_create s productData options)
    Some None "Error creating product: "
    (createProduct this productData options) w
  /\ passes_through this (fun s => products_list s options)
       (fun products => Some (data products)) None
       "Error retrieving products: " (listProducts this options) w
  /\ passes_through this (fun s => products_retrieve s productId options)
       Some None "Error retrieving product: "
       (getProduct this productId options) w
  /\ passes_through this
       (fun s => products_update s productId updates options)
       Some None "Error updating product: "
       (updateProduct this productId updates options) w
  /\ passes_through this (fun s => products_del s productId options)
       del_deleted false "Error deleting product: "
       (deleteProduct this productId options) w.
Proof.
  repeat split; apply guarded_passes_through.
Qed.

(** X18: the product service is built only from an existing client: from
    an unset static instance, [retrieveServiceInstance] throws when the
    sync service has no client and leaves the instance unset, so a later
    call tries again; a service it returns always holds a client and is
    what every later call returns, whatever the client is by then; hence
    [getProduct] on such a service returns [null] only when the provider
    call itself has thrown. *)
Theorem product_service_instance
    (stripeInstance later : option Client) (productId : string)
    (options : option RequestOptions) (w : World R) :
  (stripeInstance = None ->
   StripeProductCrudService_retrieveServiceInstance stripeInstance None
   = (inl UninitializedGateway, None))
  /\ (forall service cache,
        StripeProductCrudService_retrieveServiceInstance stripeInstance None
        = (inr service, cache) ->
        cache = Some service
        /\ stripeService service = stripeInstance
        /\ stripeInstance <> None
        /\ StripeProductCrudService_retrieveServiceInstance later cache
           = (inr service, cache)
        /\ (fst (getProduct service productId options w) = inr None ->
            exists s err,
              stripeService service = Some s
              /\ products_retrieve s productId options = inl err)).
Proof.
  split.
  - intros ->. reflexivity.
  - intros service cache.
    unfold StripeProductCrudService_retrieveServiceInstance,
      StripeProductCrudService_constructor.
    destruct stripeInstance as [s|]; [|discriminate].
    intros Hr. injection Hr as <- <-. simpl.
    repeat split; try discriminate.
    unfold getProduct, try_catch, bind, getStripeService, call, ret,
      Logger_error. simpl.
    destruct (products_retrieve s productId options) as [err | x] eqn:Hx;
      simpl; [|discriminate].
    intros _. now exists s, err.
Qed.

End ProductFacts.

(** ** The connected-account controllers *)

Section ControllerFacts.

Context {R : Type} `{BillingRepository R}.
Context {ConnectedAccount : Type}.

(** X19: each connected-account controller never throws and answers by the
    service's result for the request parameter it reads: 200 with the value
    (an empty list included), 404 with a "not found" message for [null],
    and 500 with the error's message, which it also logs, when the service
    throws. *)
Theorem controllers_respond
    (billingConnectedAccountService :
       BillingConnectedAccountService ConnectedAccount)
    (req : Params) (w : World R) :
  responds (listConnectedAccounts billingConnectedAccountService)
    JsonAccounts "Connected accounts not found."
    (getConnectedAccounts billingConnectedAccountService req) w
  /\ responds
       (getConnectedAccountById billingConnectedAccountService (params_id req))
       JsonAccount "Connected account not found."
       (getConnectedAccountById_controller billingConnectedAccountService req)
       w
  /\ responds
       (getConnectedAccountByParticipant billingConnectedAccountService
          (params_participant req))
       JsonAccount "Connected account not found."
       (getConnectedAccountByParticipant_controller
          billingConnectedAccountService req) w
  /\ responds
       (getConnectedAccountByStripeAccount billingConnectedAccountService
          (params_stripeAccount req))
       JsonAccount "Connected account not found."
       (getConnectedAccountByStripeAccount_controller
          billingConnectedAccountService req) w.
Proof.
  unfold responds, getConnectedAccounts, getConnectedAccountById_controller,
    getConnectedAccountByParticipant_controller,
    getConnectedAccountByStripeAccount_controller, try_catch, bind, call,
    ret, Logger_error.
  repeat split.
  - destruct (listConnectedAccounts _) as [e | [a |]]; reflexivity.
  - destruct (getConnectedAccountById _ _) as [e | [a |]]; reflexivity.
  - destruct (getConnectedAccountByParticipant _ _) as [e | [a |]];
      reflexivity.
  - destruct (getConnectedAccountByStripeAccount _ _) as [e | [a |]];
      reflexivity.
Qed.

End ControllerFacts.

(** ** The further properties on the sample deployment *)

Lemma link_resolve_roundtrip_witness :
  getParticipant (CustomerId "cus_2")
    (links [(ConnectedAccountKind, "carol", "acct_1")]
       (snd (linkParticipantToCustomer "bob" "cus_2" sample_world)))
  = (inr "bob",
     links [(ConnectedAccountKind, "carol", "acct_1")]
       (snd (linkParticipantToCustomer "bob" "cus_2" sample_world))).
Proof.
  apply (link_resolve_roundtrip "bob" "cus_2"
           [(ConnectedAccountKind, "carol", "acct_1")] sample_world eq_refl).
  discriminate.
Defined.

Lemma unlink_missing_witness :
  fst (unlink CustomerKind "cus_404" sample_world)
  = inl (MappingNotFound "stripeCustomerId" "cus_404")
  /\ customerMap (snd (unlink CustomerKind "cus_404" sample_world))
     = customerMap sample_world.
Proof.
  destruct (unlink_missing CustomerKind "cus_404" sample_world eq_refl)
    as [Hthrown Hsame].
  split; [now rewrite Hthrown | apply (Hsame CustomerKind)].
Defined.

Lemma link_unlink_roundtrip_witness :
  fst (unlink ConnectedAccountKind "acct_1"
         (snd (link ConnectedAccountKind "bob" "acct_1" sample_world)))
  = inr tt
  /\ accountMap
       (snd (unlink ConnectedAccountKind "acct_1"
               (snd (link ConnectedAccountKind "bob" "acct_1" sample_world))))
     = accountMap sample_world.
Proof.
  destruct (link_unlink_roundtrip ConnectedAccountKind "bob" "acct_1"
              sample_world eq_refl) as [Hok Hsame].
  split; [exact Hok | apply (Hsame ConnectedAccountKind)].
Defined.

Lemma unlink_frees_id_witness :
  fst (link CustomerKind "bob" "cus_1"
         (snd (unlink CustomerKind "cus_1" sample_world))) = inr tt
  /\ fst (getRelatedParticipant "cus_1"
            (snd (unlink CustomerKind "cus_1" sample_world)))
     = inl (NotFound "cus_1").
Proof.
  assert (Hu : Model.unique (collection CustomerKind sample_world)).
  { unfold Model.unique. simpl. constructor; [intros [] | constructor]. }
  destruct (unlink_frees_id CustomerKind "bob" "cus_1" sample_world Hu)
    as (_ & Hlink & Hres & _).
  split; [exact Hlink | apply Hres; reflexivity].
Defined.

Lemma link_participant_not_unique_witness :
  customerMap
    (snd (link CustomerKind "alice" "cus_3"
            (snd (link CustomerKind "alice" "cus_2" sample_world))))
  = [mkMapping "alice" "cus_1"; mkMapping "alice" "cus_2";
     mkMapping "alice" "cus_3"].
Proof.
  apply (link_participant_not_unique CustomerKind "alice" "cus_2" "cus_3"
           sample_world); [discriminate | reflexivity | reflexivity].
Defined.

Lemma kinds_independent_witness :
  fst (link ConnectedAccountKind "bob" "cus_1"
         (snd (link CustomerKind "alice" "cus_9" sample_world)))
  = fst (link ConnectedAccountKind "bob" "cus_1" sample_world)
  /\ fst (link ConnectedAccountKind "bob" "cus_1" sample_world) = inr tt.
Proof.
  split; [|reflexivity].
  apply (kinds_independent CustomerKind ConnectedAccountKind "alice" "bob"
           "cus_9" "cus_1" sample_world). discriminate.
Defined.

Lemma handleWebhook_repo_untouched_witness :
  repo (snd (handleWebhook (mkEvent "invoice.paid" sub_1) stored_world))
  = repo stored_world
  /\ repo (snd (handleWebhook (mkEvent "customer.subscription.deleted" sub_1)
                  (set_stripe None stored_world)))
     = repo stored_world.
Proof.
  split.
  - apply (handleWebhook_repo_untouched (mkEvent "invoice.paid" sub_1)
             stored_world).
    right. split; discriminate.
  - apply (handleWebhook_repo_untouched
             (mkEvent "customer.subscription.deleted" sub_1)
             (set_stripe None stored_world)).
    left. reflexivity.
Defined.


Lemma created_for_deleted_customer_witness :
  repo (snd (handleWebhook (mkEvent "customer.subscription.created" sub_3)
               second_world))
  = empty_repository
  /\ log (snd (handleWebhook (mkEvent "customer.subscription.created" sub_3)
                 second_world))
     = [LogError "Error registering subscription sub_3: Customer has been deleted"].
Proof.
  rewrite (created_for_deleted_customer
             (mkEvent "customer.subscription.created" sub_3) second_world
             sub_3 (mkCustomerObject (Some true) (Some "cus_1")));
    [split; reflexivity | reflexivity | discriminate | reflexivity
     | reflexivity | reflexivity].
Defined.

Lemma link_then_created_witness :
  calls (repo (snd (handleWebhook
                      (mkEvent "customer.subscription.created" sub_2)
                      (snd (linkParticipantToCustomer "bob" "cus_2"
                              second_world)))))
  = [AddSubscriptions [translated sub_2 "bob"]].
Proof.
  rewrite (link_then_created "bob" "cus_2"
             (mkEvent "customer.subscription.created" sub_2) second_world
             sub_2);
    [reflexivity | reflexivity | discriminate | reflexivity | reflexivity
     | reflexivity].
Defined.

Lemma formatStripeSubscription_bounds_witness :
  exists sub d,
    fst (formatStripeSubscription "sub_1" sample_world) = inr (Some sub)
    /\ endDate (details sub) = Some d
    /\ timeValue (startDate (details sub)) = Some 1700000000000
    /\ timeValue d = Some 1702592000000.
Proof.
  destruct (formatStripeSubscription_bounds "sub_1" sample_world sub_1
              "alice" eq_refl eq_refl) as (sub & d & Hf & Hd & _).
  exists sub, d. split; [exact Hf|]. split; [exact Hd|].
  injection Hf as <-. injection Hd as <-. split; reflexivity.
Defined.

(** ** The check of a linking call is not atomic *)

Section CheckThenInsert.

Context {R : Type} `{BillingRepository R}.

(** X20: the linking operation checks and inserts in two separate storage
    calls: over a storage boundary that inserts without checking, two
    concurrent calls for a free external id that both query before either
    inserts both succeed, and the collection ends with two mappings for
    that id, so external-id uniqueness is lost. *)
Theorem link_check_then_insert_races
    (k : MappingKind) (p1 p2 e : string) (w : World R) :
  Model.findOne e (collection k w) = None ->
  let st := race (fun _ => Model.save_unchecked) k p1 p2 e
              [true; false; true; false] (AtFind, AtFind, w) in
  fst (fst st) = Finished (inr tt)
  /\ snd (fst st) = Finished (inr tt)
  /\ collection k (snd st)
     = (collection k w ++ [mkMapping p1 e; mkMapping p2 e])%list
  /\ ~ Model.unique (collection k (snd st)).
Proof.
  intros Hn.
  assert (Hrun : race (fun _ => Model.save_unchecked) k p1 p2 e
                   [true; false; true; false] (AtFind, AtFind, w)
                 = (Finished (inr tt), Finished (inr tt),
                    set_collection k
                      (collection k w ++ [mkMapping p1 e; mkMapping p2 e])%list
                      w)).
  { unfold race, link_step, link_resume, Model_save_with, Model_findOne,
      Model.save_unchecked, try_catch. simpl. rewrite Hn.
    rewrite collection_set_same, <- app_assoc. simpl.
    destruct k; reflexivity. }
  rewrite Hrun. simpl. rewrite collection_set_same.
  repeat split.
  unfold Model.unique. rewrite map_app. simpl. intros Hu.
  apply NoDup_app_remove_l in Hu.
  inversion Hu as [|? ? Hin _]; subst. apply Hin. now left.
Qed.

End CheckThenInsert.

Lemma link_check_then_insert_races_witness :
  customerMap
    (snd (race (fun _ => Model.save_unchecked) CustomerKind "alice" "bob"
            "cus_7" [true; false; true; false]
            (AtFind, AtFind, sample_world)))
  = [mkMapping "alice" "cus_1"; mkMapping "alice" "cus_7";
     mkMapping "bob" "cus_7"].
Proof.
  apply (link_check_then_insert_races CustomerKind "alice" "bob" "cus_7"
           sample_world eq_refl).
Defined.

(** ** Internal ids in the in-memory repository *)

Lemma registerSubscription_repo {R : Type} `{BillingRepository R}
    (raw : RawSubscription) (w : World R) :
  repo (snd (registerSubscription raw w)) =
  match fst (formatStripeSubscription (sub_id raw) w) with
  | inr (Some sub) => snd (addSubscriptions [sub] (repo w))
  | _ => repo w
  end.
Proof.
  pose proof (formatStripeSubscription_repo (sub_id raw) w) as Hrepo.
  unfold registerSubscription, registerSubscription_try, try_catch, bind,
    sync_addSubscriptions, throw.
  destruct (formatStripeSubscription (sub_id raw) w) as [[err | [s |]] w'];
    simpl in *; try exact Hrepo.
  rewrite Hrepo.
  destruct (addSubscriptions [s] (repo w)) as [[e | []] r']; reflexivity.
Qed.

Lemma unregisterSubscription_repo {R : Type} `{BillingRepository R}
    (raw : RawSubscription) (w : World R) :
  repo (snd (unregisterSubscription raw w)) = repo w
  \/ exists i,
       repo (snd (unregisterSubscription raw w))
       = snd (removeSubscription i (repo w)).
Proof.
  unfold unregisterSubscription, unregisterSubscription_try, try_catch, bind,
    SubscriptionModel_findOne, sync_removeSubscription, throw.
  destruct (findOneByStripeId (sub_id raw) (repo w)) as [err | [doc |]];
    simpl; try (now left).
  destruct (truthy (doc_id doc)); simpl; [|now left].
  right. exists (doc_id doc).
  destruct (removeSubscription (doc_id doc) (repo w)) as [[e | []] r'];
    reflexivity.
Qed.

Lemma append_nonempty (s t : string) : t <> "" -> s ++ t <> "".
Proof.
  intros Ht. destruct s; [exact Ht | discriminate].
Qed.

Lemma generateId_nonempty (r : MemoryRepository) (index : nat) :
  generateId r index <> "".
Proof.
  unfold generateId. apply append_nonempty.
  change (hex 16 (N.of_nat (length (records r) + index)))
    with (hex 15 (N.of_nat (length (records r) + index) / 16)
          ++ String (hexDigit (N.of_nat (length (records r) + index) mod 16))
               "").
  apply append_nonempty. discriminate.
Qed.

Lemma assign_ids_ok (r : MemoryRepository) (index : nat)
    (subs : list Subscription) :
  Forall (fun s => _id s <> Some "") subs ->
  Forall (fun s => exists i, _id s = Some i /\ i <> "")
    (assign_ids r index subs).
Proof.
  revert index. induction subs as [|s subs IH]; intros index Hs; simpl.
  - constructor.
  - inversion Hs as [|? ? Hhead Htail]; subst. constructor.
    + destruct (_id s) as [i|] eqn:Hi.
      * exists i. split; [exact Hi | congruence].
      * exists (generateId r index).
        split; [reflexivity | apply generateId_nonempty].
    + now apply IH.
Qed.

Lemma memory_add_ids_ok (subs : list Subscription) (r : MemoryRepository) :
  Forall (fun s => _id s <> Some "") subs ->
  ids_ok r -> ids_ok (snd (memory_add subs r)).
Proof.
  intros Hs Hr. unfold ids_ok, memory_add. simpl.
  apply Forall_app. split; [exact Hr | now apply assign_ids_ok].
Qed.

Lemma memory_remove_ids_ok (key : string) (r : MemoryRepository) :
  ids_ok r -> ids_ok (snd (memory_remove key r)).
Proof.
  intros Hr. unfold ids_ok, memory_remove in *.
  destruct (existsb (has_id key) (records r)); simpl; [|exact Hr].
  rewrite Forall_forall in *. intros s Hin.
  apply filter_In in Hin. now apply Hr.
Qed.

(** In a repository whose stored ids are in order, the lookup of a record
    never fails, and the id it renders is not empty. *)
Lemma memory_findOne_ids_ok (key : string) (r : MemoryRepository) :
  ids_ok r ->
  memory_findOne key r = inr None
  \/ exists doc, memory_findOne key r = inr (Some doc) /\ doc_id doc <> "".
Proof.
  intros Hr. unfold memory_findOne.
  destruct (find (has_stripeId key) (records r)) as [s|] eqn:Hf;
    [|now left].
  apply find_some in Hf. destruct Hf as [Hin _].
  unfold ids_ok in Hr. rewrite Forall_forall in Hr.
  destruct (Hr s Hin) as (i & Hi & Hne). rewrite Hi.
  right. now exists (mkDoc i).
Qed.

Lemma handleWebhook_ids_ok (event : Event) (w : World MemoryRepository) :
  ids_ok (repo w) -> ids_ok (repo (snd (handleWebhook event w))).
Proof.
  intros Hr. rewrite handleWebhook_cases.
  destruct (stripe w); [|exact Hr].
  destruct (event_type event =? "customer.subscription.updated")%string;
    [exact Hr|].
  destruct (event_type event =? "customer.subscription.deleted")%string.
  { destruct (unregisterSubscription_repo (data_object event) w)
      as [Hsame | [i Hi]].
    - now rewrite Hsame.
    - rewrite Hi. now apply memory_remove_ids_ok. }
  destruct (event_type event =? "customer.subscription.created")%string;
    [|exact Hr].
  rewrite registerSubscription_repo.
  destruct (fst (formatStripeSubscription (sub_id (data_object event)) w))
    as [err | [sub |]] eqn:Hf; try exact Hr.
  destruct (formatStripeSubscription_Some _ _ _ Hf)
    as (raw & p & _ & _ & -> & _).
  apply (memory_add_ids_ok [translated raw p] (repo w)); [|exact Hr].
  constructor; [discriminate | constructor].
Qed.

Lemma run_operation_repo (op : Operation) (w : World MemoryRepository) :
  ids_ok (repo w) -> ids_ok (repo (run_operation op w)).
Proof.
  intros Hr. destruct op as [k p e | k e | event | email | i]; simpl.
  - rewrite link_cases. destruct (mapped e (collection k w)); simpl;
      [exact Hr | destruct k; exact Hr].
  - rewrite unlink_cases. destruct (mapped e (collection k w)); simpl;
      [destruct k; exact Hr | exact Hr].
  - now apply handleWebhook_ids_ok.
  - destruct (connect_logs_only email w) as [entries ->]. exact Hr.
  - destruct (formatStripeSubscription_logs_only i w) as [entries ->].
    exact Hr.
Qed.

(** Over any run of the public operations from a repository whose ids are
    in order (the empty one for instance), every record a deleted event
    finds renders a non-empty internal id, and the lookup never fails: the
    records the engine stores come without an id and are given a generated
    one. *)
Lemma stored_ids_render (ops : list Operation) (w : World MemoryRepository)
    (key : string) :
  ids_ok (repo w) ->
  findOneByStripeId key (repo (run_operations ops w)) = inr None
  \/ exists doc,
       findOneByStripeId key (repo (run_operations ops w)) = inr (Some doc)
       /\ doc_id doc <> "".
Proof.
  intros Hr. apply memory_findOne_ids_ok.
  revert w Hr. induction ops as [|op ops IH]; intros w Hr; simpl.
  - exact Hr.
  - apply IH. now apply run_operation_repo.
Qed.
